(** * GolangApp: the cat store handlers ([allCatsHandlers.go], [oneCatHandlers.go])

    A shallow embedding of the four request handlers and of the in-memory
    store they share, together with a model of the library functions the
    handlers rely on: [encoding/json] (decoding a request body into a
    [Cat], encoding a [Cat]), [unicode/utf8] and [github.com/google/uuid].

    Go strings and byte slices are byte sequences: [string] where the
    handlers use them, [list ascii] inside the JSON functions.  A byte is
    read as a number with [code]. *)

From Stdlib Require Import ZArith Ascii String List Lia Bool.
From stdpp Require Import base tactics option list strings gmap fin_maps.

Local Open Scope Z_scope.

Abbreviation bytes := (list ascii).

Definition code (a : ascii) : Z := Z.of_N (N_of_ascii a).
Definition chr (z : Z) : ascii := ascii_of_N (Z.to_N z).

(** Results of the fallible library calls.  [ESyntax] stands for the
    errors of the scanner (a malformed or truncated JSON text, an empty
    body), [EType] for [json.UnmarshalTypeError]; [EFuel] is the model's
    own mark for a recursion that ran out of steps, and is shown never to
    leave [Decode] or [Unmarshal]. *)
Inductive error := ESyntax | EType | EFuel.

Inductive res (A : Type) :=
| Ok (a : A)
| Err (e : error).
Arguments Ok {A} a.
Arguments Err {A} e.

#[global] Instance res_ret : MRet res := fun A a => Ok a.
#[global] Instance res_bind : MBind res := fun A B k r =>
  match r with
  | Ok a => k a
  | Err e => Err e
  end.

(** ** unicode/utf8 *)
Module Utf8.

Definition RuneError : Z := 0xFFFD.
Definition MaxRune : Z := 0x10FFFF.
Definition surrogateMin : Z := 0xD800.
Definition surrogateMax : Z := 0xDFFF.

(** The table [first] with [acceptRanges]: for a leading byte, the length
    of the sequence and the range allowed for the second byte. *)
Definition first (p0 : Z) : option (Z * (Z * Z)) :=
  if p0 <? 0xC2 then None
  else if p0 <=? 0xDF then Some (2, (0x80, 0xBF))
  else if p0 =? 0xE0 then Some (3, (0xA0, 0xBF))
  else if p0 <=? 0xEC then Some (3, (0x80, 0xBF))
  else if p0 =? 0xED then Some (3, (0x80, 0x9F))
  else if p0 <=? 0xEF then Some (3, (0x80, 0xBF))
  else if p0 =? 0xF0 then Some (4, (0x90, 0xBF))
  else if p0 <=? 0xF3 then Some (4, (0x80, 0xBF))
  else if p0 =? 0xF4 then Some (4, (0x80, 0x8F))
  else None.

Definition DecodeRune (p : bytes) : Z * nat :=
  match p with
  | [] => (RuneError, 0%nat)
  | a0 :: t =>
    let p0 := code a0 in
    if p0 <? 0x80 then (p0, 1%nat)
    else
      match first p0 with
      | None => (RuneError, 1%nat)
      | Some (sz, (lo, hi)) =>
        match t with
        | [] => (RuneError, 1%nat)
        | a1 :: t1 =>
          let b1 := code a1 in
          if (b1 <? lo) || (hi <? b1) then (RuneError, 1%nat)
          else if sz <=? 2 then
            (Z.lor (Z.shiftl (Z.land p0 0x1F) 6) (Z.land b1 0x3F), 2%nat)
          else
            match t1 with
            | [] => (RuneError, 1%nat)
            | a2 :: t2 =>
              let b2 := code a2 in
              if (b2 <? 0x80) || (0xBF <? b2) then (RuneError, 1%nat)
              else if sz <=? 3 then
                (Z.lor (Z.lor (Z.shiftl (Z.land p0 0x0F) 12)
                              (Z.shiftl (Z.land b1 0x3F) 6))
                       (Z.land b2 0x3F), 3%nat)
              else
                match t2 with
                | [] => (RuneError, 1%nat)
                | a3 :: _ =>
                  let b3 := code a3 in
                  if (b3 <? 0x80) || (0xBF <? b3) then (RuneError, 1%nat)
                  else
                    (Z.lor (Z.lor (Z.lor (Z.shiftl (Z.land p0 0x07) 18)
                                         (Z.shiftl (Z.land b1 0x3F) 12))
                                  (Z.shiftl (Z.land b2 0x3F) 6))
                           (Z.land b3 0x3F), 4%nat)
                end
            end
        end
      end
  end.

(** [EncodeRune] converts its argument to [uint32] first, so a negative
    rune is out of range like one above [MaxRune]. *)
Definition EncodeRune (r : Z) : bytes :=
  if (0 <=? r) && (r <=? 0x7F) then [chr r]
  else if (0 <=? r) && (r <=? 0x7FF) then
    [chr (Z.lor 0xC0 (Z.shiftr r 6)); chr (Z.lor 0x80 (Z.land r 0x3F))]
  else
    let r := if (r <? 0) || (MaxRune <? r)
                || ((surrogateMin <=? r) && (r <=? surrogateMax))
             then RuneError else r in
    if r <=? 0xFFFF then
      [chr (Z.lor 0xE0 (Z.shiftr r 12));
       chr (Z.lor 0x80 (Z.land (Z.shiftr r 6) 0x3F));
       chr (Z.lor 0x80 (Z.land r 0x3F))]
    else
      [chr (Z.lor 0xF0 (Z.shiftr r 18));
       chr (Z.lor 0x80 (Z.land (Z.shiftr r 12) 0x3F));
       chr (Z.lor 0x80 (Z.land (Z.shiftr r 6) 0x3F));
       chr (Z.lor 0x80 (Z.land r 0x3F))].

(** [utf8.Valid]: no position decodes to ([RuneError], 1). *)
Fixpoint validLoop (fuel : nat) (p : bytes) : bool :=
  match p with
  | [] => true
  | _ :: _ =>
    match fuel with
    | O => false
    | S f =>
      let '(r, size) := DecodeRune p in
      if (r =? RuneError) && (size =? 1)%nat then false
      else validLoop f (drop size p)
    end
  end.

Definition Valid (p : bytes) : bool := validLoop (length p) p.

Definition ValidString (s : string) : bool := Valid (list_ascii_of_string s).

End Utf8.

(** ** The record ([type Cat struct]) *)
Record Cat := mkCat {
  Name : string;       (* `json:"name"` *)
  ID : string;         (* `json:"id,omitempty"` *)
  BirthDate : string;  (* `json:"birthDate,omitempty"` *)
  Color : string       (* `json:"color,omitempty"` *)
}.

(** [var catCreationData Cat]: the zero value. *)
Definition zeroCat : Cat := mkCat "" "" "" "".

Definition setName (s : string) (c : Cat) : Cat := mkCat s (ID c) (BirthDate c) (Color c).
Definition setID (s : string) (c : Cat) : Cat := mkCat (Name c) s (BirthDate c) (Color c).
Definition setBirthDate (s : string) (c : Cat) : Cat := mkCat (Name c) (ID c) s (Color c).
Definition setColor (s : string) (c : Cat) : Cat := mkCat (Name c) (ID c) (BirthDate c) s.

(** ** encoding/json, as far as a [Cat] goes through it *)
Module GoJSON.
Import Utf8.

Definition B (s : string) : bytes := list_ascii_of_string s.

Definition isSpace (c : ascii) : bool :=
  Ascii.eqb c " " || Ascii.eqb c "009" || Ascii.eqb c "013" || Ascii.eqb c "010".

Fixpoint skipSpace (s : bytes) : bytes :=
  match s with
  | c :: r => if isSpace c then skipSpace r else s
  | [] => []
  end.

Definition isDigit (c : ascii) : bool := (48 <=? code c) && (code c <=? 57).
Definition isDigit19 (c : ascii) : bool := (49 <=? code c) && (code c <=? 57).

(** The value of a hexadecimal digit, [None] for another byte. *)
Definition hexVal (c : ascii) : option Z :=
  let n := code c in
  if (48 <=? n) && (n <=? 57) then Some (n - 48)
  else if (97 <=? n) && (n <=? 102) then Some (n - 97 + 10)
  else if (65 <=? n) && (n <=? 70) then Some (n - 65 + 10)
  else None.

Definition isHex (c : ascii) : bool :=
  match hexVal c with Some _ => true | None => false end.

(** *** scanner.go: string literals

    The states of the scanner inside a string literal.  [scanString]
    runs them from the byte after the opening quote and returns the
    bytes of the literal up to its closing quote, and the input after
    that quote. *)
Inductive strState :=
| stateInString | stateInStringEsc
| stateInStringEscU | stateInStringEscU1 | stateInStringEscU12 | stateInStringEscU123.

Definition isEscChar (c : ascii) : bool :=
  Ascii.eqb c "b" || Ascii.eqb c "f" || Ascii.eqb c "n" || Ascii.eqb c "r"
  || Ascii.eqb c "t" || Ascii.eqb c "\" || Ascii.eqb c "/" || Ascii.eqb c "034".

Definition consFst {A C : Type} (a : A) (r : option (list A * C)) : option (list A * C) :=
  match r with
  | Some (l, c) => Some (a :: l, c)
  | None => None
  end.

Fixpoint scanString (st : strState) (s : bytes) : option (bytes * bytes) :=
  match s with
  | [] => None
  | c :: r =>
    match st with
    | stateInString =>
      if Ascii.eqb c "034" then Some ([], r)
      else if Ascii.eqb c "\" then consFst c (scanString stateInStringEsc r)
      else if code c <? 0x20 then None
      else consFst c (scanString stateInString r)
    | stateInStringEsc =>
      if isEscChar c then consFst c (scanString stateInString r)
      else if Ascii.eqb c "u" then consFst c (scanString stateInStringEscU r)
      else None
    | stateInStringEscU =>
      if isHex c then consFst c (scanString stateInStringEscU1 r) else None
    | stateInStringEscU1 =>
      if isHex c then consFst c (scanString stateInStringEscU12 r) else None
    | stateInStringEscU12 =>
      if isHex c then consFst c (scanString stateInStringEscU123 r) else None
    | stateInStringEscU123 =>
      if isHex c then consFst c (scanString stateInString r) else None
    end
  end.

(** *** decode.go: [getu4], [unquoteBytes] *)
Definition getu4 (s : bytes) : Z :=
  match s with
  | c0 :: c1 :: h1 :: h2 :: h3 :: h4 :: _ =>
    if Ascii.eqb c0 "\" && Ascii.eqb c1 "u" then
      match hexVal h1, hexVal h2, hexVal h3, hexVal h4 with
      | Some v1, Some v2, Some v3, Some v4 => ((v1 * 16 + v2) * 16 + v3) * 16 + v4
      | _, _, _, _ => -1
      end
    else -1
  | _ => -1
  end.

(** [utf16.IsSurrogate] and [utf16.DecodeRune]. *)
Definition IsSurrogate (r : Z) : bool := (0xd800 <=? r) && (r <? 0xe000).

Definition utf16DecodeRune (r1 r2 : Z) : Z :=
  if (0xd800 <=? r1) && (r1 <? 0xdc00) && (0xdc00 <=? r2) && (r2 <? 0xe000)
  then Z.lor (Z.shiftl (r1 - 0xd800) 10) (r2 - 0xdc00) + 0x10000
  else RuneError.

(** The loop of [unquoteBytes] over the inside of a literal; every round
    consumes at least one byte. *)
Fixpoint unquoteLoop (fuel : nat) (s : bytes) : res bytes :=
  match s with
  | [] => Ok []
  | c :: r =>
    match fuel with
    | O => Err EFuel
    | S f =>
      if Ascii.eqb c "\" then
        match r with
        | [] => Err ESyntax
        | e :: r' =>
          if Ascii.eqb e "034" || Ascii.eqb e "\" || Ascii.eqb e "/" || Ascii.eqb e "'"
          then t ← unquoteLoop f r'; Ok (e :: t)
          else if Ascii.eqb e "b" then t ← unquoteLoop f r'; Ok ("008"%char :: t)
          else if Ascii.eqb e "f" then t ← unquoteLoop f r'; Ok ("012"%char :: t)
          else if Ascii.eqb e "n" then t ← unquoteLoop f r'; Ok ("010"%char :: t)
          else if Ascii.eqb e "r" then t ← unquoteLoop f r'; Ok ("013"%char :: t)
          else if Ascii.eqb e "t" then t ← unquoteLoop f r'; Ok ("009"%char :: t)
          else if Ascii.eqb e "u" then
            let rr := getu4 s in
            if rr <? 0 then Err ESyntax
            else
              let s6 := drop 6 s in
              if IsSurrogate rr then
                let dec := utf16DecodeRune rr (getu4 s6) in
                if negb (dec =? RuneError)
                then t ← unquoteLoop f (drop 6 s6); Ok (EncodeRune dec ++ t)
                else t ← unquoteLoop f s6; Ok (EncodeRune RuneError ++ t)
              else t ← unquoteLoop f s6; Ok (EncodeRune rr ++ t)
          else Err ESyntax
        end
      else if Ascii.eqb c "034" || (code c <? 0x20) then Err ESyntax
      else if code c <? 0x80 then t ← unquoteLoop f r; Ok (c :: t)
      else
        let '(rr, size) := DecodeRune s in
        t ← unquoteLoop f (drop size s); Ok (EncodeRune rr ++ t)
    end
  end.

Definition unquote (s : bytes) : res bytes := unquoteLoop (length s) s.

(** A string literal, from the byte after its opening quote.  The
    decoder unquotes what the scanner has accepted, and [unquote] does
    not fail there ([Scanned.parseString_Err]). *)
Definition parseString (s : bytes) : res (bytes * bytes) :=
  match scanString stateInString s with
  | None => Err ESyntax
  | Some (lit, rest) => t ← unquote lit; Ok (t, rest)
  end.

(** *** scanner.go: numbers *)
Inductive numState :=
| stateNeg | state1 | state0 | stateDot | stateDot0 | stateE | stateESign | stateE0.

Inductive numStepResult := NumCont (st : numState) | NumEnd | NumErr.

Definition isE (c : ascii) : bool := Ascii.eqb c "e" || Ascii.eqb c "E".

Definition numStep (st : numState) (c : ascii) : numStepResult :=
  match st with
  | stateNeg =>
    if Ascii.eqb c "0" then NumCont state0
    else if isDigit19 c then NumCont state1 else NumErr
  | state1 =>
    if isDigit c then NumCont state1
    else if Ascii.eqb c "." then NumCont stateDot
    else if isE c then NumCont stateE else NumEnd
  | state0 =>
    if Ascii.eqb c "." then NumCont stateDot
    else if isE c then NumCont stateE else NumEnd
  | stateDot => if isDigit c then NumCont stateDot0 else NumErr
  | stateDot0 =>
    if isDigit c then NumCont stateDot0
    else if isE c then NumCont stateE else NumEnd
  | stateE =>
    if Ascii.eqb c "+" || Ascii.eqb c "-" then NumCont stateESign
    else if isDigit c then NumCont stateE0 else NumErr
  | stateESign => if isDigit c then NumCont stateE0 else NumErr
  | stateE0 => if isDigit c then NumCont stateE0 else NumEnd
  end.

(** At the end of the input the decoder steps the scanner with a space. *)
Fixpoint scanNumber (st : numState) (s : bytes) : option (bytes * bytes) :=
  match s with
  | [] =>
    match numStep st " " with
    | NumEnd => Some ([], [])
    | _ => None
    end
  | c :: r =>
    match numStep st c with
    | NumCont st' => consFst c (scanNumber st' r)
    | NumEnd => Some ([], s)
    | NumErr => None
    end
  end.

(** *** The JSON text of one value *)
#[local] Unset Elimination Schemes.
Inductive json :=
| JNull
| JBool (b : bool)
| JNumber (lit : bytes)
| JString (s : bytes)
| JArray (l : list json)
| JObject (m : list (bytes * json)).
#[local] Set Elimination Schemes.

Definition maxNestingDepth : Z := 10000.

(** [expect c s]: the input after the byte [c], when [s] starts with it. *)
Definition expect (c : ascii) (s : bytes) : option bytes :=
  match s with
  | x :: r => if Ascii.eqb x c then Some r else None
  | [] => None
  end.

Fixpoint expectAll (w : bytes) (s : bytes) : option bytes :=
  match w with
  | [] => Some s
  | c :: w' =>
    match expect c s with
    | Some r => expectAll w' r
    | None => None
    end
  end.

Definition parseLiteral (w : string) (v : json) (s : bytes) : res (json * bytes) :=
  match expectAll (B w) s with
  | Some r => Ok (v, r)
  | None => Err ESyntax
  end.

Definition parseNumber (st : numState) (c : ascii) (r : bytes) : res (json * bytes) :=
  match scanNumber st r with
  | Some (lit, rest) => Ok (JNumber (c :: lit), rest)
  | None => Err ESyntax
  end.

(** [parseValue] is the scanner from [stateBeginValue]; [parseMembers]
    from [stateBeginString], inside an object; [parseElements] from
    [stateBeginValue] inside an array.  [depth] is the length of the
    scanner's [parseState] stack. *)
Fixpoint parseValue (fuel : nat) (depth : Z) (s : bytes) : res (json * bytes) :=
  match fuel with
  | O => Err EFuel
  | S f =>
    match skipSpace s with
    | [] => Err ESyntax
    | c :: r =>
      if Ascii.eqb c "{" then
        if maxNestingDepth <? depth + 1 then Err ESyntax
        else
          match expect "}" (skipSpace r) with
          | Some r' => Ok (JObject [], r')
          | None => '(ms, r') ← parseMembers f (depth + 1) r; Ok (JObject ms, r')
          end
      else if Ascii.eqb c "[" then
        if maxNestingDepth <? depth + 1 then Err ESyntax
        else
          match expect "]" (skipSpace r) with
          | Some r' => Ok (JArray [], r')
          | None => '(vs, r') ← parseElements f (depth + 1) r; Ok (JArray vs, r')
          end
      else if Ascii.eqb c "034" then '(t, r') ← parseString r; Ok (JString t, r')
      else if Ascii.eqb c "-" then parseNumber stateNeg c r
      else if Ascii.eqb c "0" then parseNumber state0 c r
      else if isDigit19 c then parseNumber state1 c r
      else if Ascii.eqb c "t" then parseLiteral "rue" (JBool true) r
      else if Ascii.eqb c "f" then parseLiteral "alse" (JBool false) r
      else if Ascii.eqb c "n" then parseLiteral "ull" JNull r
      else Err ESyntax
    end
  end
with parseMembers (fuel : nat) (depth : Z) (s : bytes) : res (list (bytes * json) * bytes) :=
  match fuel with
  | O => Err EFuel
  | S f =>
    match expect "034" (skipSpace s) with
    | None => Err ESyntax
    | Some r =>
      '(key, r1) ← parseString r;
      match expect ":" (skipSpace r1) with
      | None => Err ESyntax
      | Some r2 =>
        '(v, r3) ← parseValue f depth r2;
        match expect "," (skipSpace r3) with
        | Some r4 => '(ms, r5) ← parseMembers f depth r4; Ok ((key, v) :: ms, r5)
        | None =>
          match expect "}" (skipSpace r3) with
          | Some r4 => Ok ([(key, v)], r4)
          | None => Err ESyntax
          end
        end
      end
    end
  end
with parseElements (fuel : nat) (depth : Z) (s : bytes) : res (list json * bytes) :=
  match fuel with
  | O => Err EFuel
  | S f =>
    '(v, r1) ← parseValue f depth s;
    match expect "," (skipSpace r1) with
    | Some r2 => '(vs, r3) ← parseElements f depth r2; Ok (v :: vs, r3)
    | None =>
      match expect "]" (skipSpace r1) with
      | Some r2 => Ok ([v], r2)
      | None => Err ESyntax
      end
    end
  end.

(** [Decoder.readValue]: the first value of the stream and what follows
    it.  Two calls of the three functions in a row consume a byte at
    least, so twice the length of the input is fuel enough. *)
Definition readValue (s : bytes) : res (json * bytes) :=
  parseValue (S (2 * length s)) 0 s.

(** *** decode.go: storing an object into the struct

    The fields of the struct, in the order of the declaration. *)
Inductive field := FName | FID | FBirthDate | FColor.

Definition structFields : list field := [FName; FID; FBirthDate; FColor].

Definition fieldName (f : field) : string :=
  match f with
  | FName => "name"
  | FID => "id"
  | FBirthDate => "birthDate"
  | FColor => "color"
  end.

Definition omitEmpty (f : field) : bool :=
  match f with
  | FName => false
  | _ => true
  end.

Definition getField (f : field) (c : Cat) : string :=
  match f with
  | FName => Name c
  | FID => ID c
  | FBirthDate => BirthDate c
  | FColor => Color c
  end.

Definition setField (f : field) (s : string) (c : Cat) : Cat :=
  match f with
  | FName => setName s c
  | FID => setID s c
  | FBirthDate => setBirthDate s c
  | FColor => setColor s c
  end.

(** A key selects the field whose name it equals, or else the field
    whose name it equals up to the case of letters.  None of the four
    names holds a letter with a fold outside ASCII (k, s), so folding
    the ASCII letters is all of [foldName] that can make a match. *)
Definition foldByte (c : ascii) : ascii :=
  if (97 <=? code c) && (code c <=? 122) then chr (code c - 32) else c.

Definition foldName (s : bytes) : bytes := map foldByte s.

Definition fieldByName (key : bytes) : option field :=
  match List.find (fun f => bool_decide (B (fieldName f) = key)) structFields with
  | Some f => Some f
  | None =>
    List.find (fun f => bool_decide (foldName (B (fieldName f)) = foldName key)) structFields
  end.

(** [literalStore], [array] and [object] on a field of kind string: a
    string is stored, [null] leaves the field as it is, any other value
    is an [UnmarshalTypeError].  (After such an error the decoder goes
    on and reports it at the end; only the error is observed.) *)
Definition storeField (f : field) (v : json) (c : Cat) : res Cat :=
  match v with
  | JString s => Ok (setField f (string_of_list_ascii s) c)
  | JNull => Ok c
  | _ => Err EType
  end.

(** The members in the order of the text; the value of a key that
    selects no field is skipped. *)
Fixpoint decodeObject (ms : list (bytes * json)) (c : Cat) : res Cat :=
  match ms with
  | [] => Ok c
  | (key, v) :: ms' =>
    match fieldByName key with
    | Some f => c' ← storeField f v c; decodeObject ms' c'
    | None => decodeObject ms' c
    end
  end.

Definition decodeValue (j : json) (c : Cat) : res Cat :=
  match j with
  | JObject ms => decodeObject ms c
  | JNull => Ok c
  | _ => Err EType
  end.

(** [json.NewDecoder(body).Decode(&v)]: the first value of the body is
    read and stored; the bytes after it stay in the stream. *)
Definition Decode (body : string) (v : Cat) : res Cat :=
  '(j, _) ← readValue (B body); decodeValue j v.

(** [json.Unmarshal(data, &v)]: the data are one value, with nothing but
    space after it. *)
Definition Unmarshal (data : string) (v : Cat) : res Cat :=
  '(j, rest) ← readValue (B data);
  match skipSpace rest with
  | [] => decodeValue j v
  | _ :: _ => Err ESyntax
  end.

(** *** encode.go: [appendString] with [escapeHTML], and the struct encoder *)
Definition hex : string := "0123456789abcdef".

Definition hexDigit (n : Z) : ascii := nth (Z.to_nat n) (B hex) "0"%char.

(** [htmlSafeSet], for a byte below [utf8.RuneSelf]. *)
Definition htmlSafeSet (b : ascii) : bool :=
  (0x20 <=? code b)
  && negb (Ascii.eqb b "034" || Ascii.eqb b "\" || Ascii.eqb b "<"
           || Ascii.eqb b ">" || Ascii.eqb b "&").

Definition escapeByte (b : ascii) : bytes :=
  if Ascii.eqb b "\" || Ascii.eqb b "034" then ["\"%char; b]
  else if Ascii.eqb b "008" then B "\b"
  else if Ascii.eqb b "012" then B "\f"
  else if Ascii.eqb b "010" then B "\n"
  else if Ascii.eqb b "013" then B "\r"
  else if Ascii.eqb b "009" then B "\t"
  else B "\u00" ++ [hexDigit (Z.shiftr (code b) 4); hexDigit (Z.land (code b) 0xF)].

Fixpoint appendStringLoop (fuel : nat) (src : bytes) : bytes :=
  match src with
  | [] => []
  | b :: rest =>
    match fuel with
    | O => []
    | S f =>
      if code b <? 0x80 then
        (if htmlSafeSet b then [b] else escapeByte b) ++ appendStringLoop f rest
      else
        let '(c, size) := DecodeRune (take 4 src) in
        if (c =? RuneError) && (size =? 1)%nat then
          B "\ufffd" ++ appendStringLoop f rest
        else if (c =? 0x2028) || (c =? 0x2029) then
          B "\u202" ++ [hexDigit (Z.land c 0xF)] ++ appendStringLoop f (drop size src)
        else take size src ++ appendStringLoop f (drop size src)
    end
  end.

Definition appendString (src : bytes) : bytes :=
  "034"%char :: appendStringLoop (length src) src ++ ["034"%char].

(** The struct encoder: [next] is the byte written before the next
    field, an [omitempty] field with the empty string is passed over. *)
Fixpoint encodeFields (next : ascii) (fs : list field) (c : Cat) : bytes * ascii :=
  match fs with
  | [] => ([], next)
  | f :: fs' =>
    if omitEmpty f && bool_decide (getField f c = ""%string) then encodeFields next fs' c
    else
      let '(out, next') := encodeFields ","%char fs' c in
      (next :: appendString (B (fieldName f)) ++ ":"%char :: appendString (B (getField f c)) ++ out,
       next')
  end.

Definition marshalBytes (c : Cat) : bytes :=
  let '(out, next) := encodeFields "{"%char structFields c in
  if Ascii.eqb next "{" then B "{}" else out ++ B "}".

(** [json.Marshal(cat)]; it has no error for this type. *)
Definition Marshal (c : Cat) : string := string_of_list_ascii (marshalBytes c).

(** The top-level keys of a JSON text that is an object. *)
Definition objectKeys (data : string) : option (list string) :=
  match readValue (B data) with
  | Ok (JObject ms, _) => Some (map (fun kv => string_of_list_ascii kv.1) ms)
  | _ => None
  end.

End GoJSON.

(** ** github.com/google/uuid

    [type UUID [16]byte], read at the indices 0 to 15.  [New] fills the
    sixteen bytes from the random source [rnd] and sets the version and
    variant bits; the bytes the source delivers are an input of the
    model. *)
Module UUID.

Definition UUID := nat -> ascii.

Definition New (rnd : nat -> ascii) : UUID := fun i =>
  if (i =? 6)%nat then chr (Z.lor (Z.land (code (rnd 6%nat)) 0x0f) 0x40)
  else if (i =? 8)%nat then chr (Z.lor (Z.land (code (rnd 8%nat)) 0x3f) 0x80)
  else rnd i.

Definition hextable : string := "0123456789abcdef".

Definition hexByte (n : Z) : ascii :=
  nth (Z.to_nat n) (list_ascii_of_string hextable) "0"%char.

(** [hex.Encode] over the bytes of [uuid] at the indices [idx]. *)
Definition hexEncode (uuid : UUID) (idx : list nat) : bytes :=
  flat_map (fun i => [hexByte (Z.shiftr (code (uuid i)) 4);
                      hexByte (Z.land (code (uuid i)) 0x0f)]) idx.

(** [(UUID).String]: xxxxxxxx-xxxx-xxxx-xxxx-xxxxxxxxxxxx. *)
Definition UUID_String (uuid : UUID) : string :=
  string_of_list_ascii
    (hexEncode uuid [0; 1; 2; 3]%nat ++ "-"%char ::
     hexEncode uuid [4; 5]%nat ++ "-"%char ::
     hexEncode uuid [6; 7]%nat ++ "-"%char ::
     hexEncode uuid [8; 9]%nat ++ "-"%char ::
     hexEncode uuid [10; 11; 12; 13; 14; 15]%nat).

End UUID.

(** ** The handlers *)

(** Of a request the handlers read the body and the path values. *)
Record Request := mkRequest {
  Body : string;
  PathValues : gmap string string
}.

(** [req.PathValue(name)]: the empty string when the pattern has no such
    wildcard. *)
Definition PathValue (req : Request) (name : string) : string :=
  default ""%string (PathValues req !! name).

(** What a handler returns for [any]. *)
Inductive any :=
| Nil
| AString (s : string)
| AStrings (l : list string)
| ACat (c : Cat).

Definition StatusOK : Z := 200.
Definition StatusCreated : Z := 201.
Definition StatusNoContent : Z := 204.
Definition StatusBadRequest : Z := 400.
Definition StatusNotFound : Z := 404.

(** [var catsDatabase]: the value the process starts with. *)
Definition catsDatabase : gmap string Cat :=
  {[ "id1"%string := mkCat "Toto" "" "2023-04-16" "Grey" ]}.

(** The loop [for catID := range aMap] appends every key once; Go leaves
    the order of the iteration open, the model takes the order of
    [map_fold]. *)
Definition listMapKeys (aMap : gmap string Cat) : list string :=
  map_fold (fun catID _ results => results ++ [catID]) [] aMap.

(** A handler takes the request and the store and returns the status,
    the payload and the store it leaves.  The calls of the logger write
    to the log only and are left out. *)
Definition listCats (req : Request) (db : gmap string Cat)
  : (Z * any) * gmap string Cat :=
  ((StatusOK, AStrings (listMapKeys db)), db).

(** [rnd] are the bytes [uuid.New] draws, when it is reached. *)
Definition createCat (req : Request) (rnd : nat -> ascii) (db : gmap string Cat)
  : (Z * any) * gmap string Cat :=
  match GoJSON.Decode (Body req) zeroCat with
  | Err _ => ((StatusBadRequest, AString "Invalid JSON input"), db)
  | Ok catCreationData =>
    let newCatID := UUID.UUID_String (UUID.New rnd) in
    let catCreationData := setID newCatID catCreationData in
    ((StatusCreated, AString newCatID), <[newCatID := catCreationData]> db)
  end.

Definition deleteCat (req : Request) (db : gmap string Cat)
  : (Z * any) * gmap string Cat :=
  let catID := PathValue req "catId" in
  match db !! catID with
  | Some _ => ((StatusNoContent, Nil), delete catID db)
  | None => ((StatusNotFound, AString "Cat not found"), db)
  end.

Definition getCat (req : Request) (db : gmap string Cat)
  : (Z * any) * gmap string Cat :=
  let catID := PathValue req "catId" in
  match db !! catID with
  | Some cat => ((StatusOK, ACat cat), db)
  | None => ((StatusNotFound, AString "Cat not found"), db)
  end.

(** ** Sequences of calls *)
Inductive call :=
| ListCats (req : Request)
| CreateCat (req : Request) (rnd : nat -> ascii)
| GetCat (req : Request)
| DeleteCat (req : Request).

Definition exec (c : call) (db : gmap string Cat) : (Z * any) * gmap string Cat :=
  match c with
  | ListCats req => listCats req db
  | CreateCat req rnd => createCat req rnd db
  | GetCat req => getCat req db
  | DeleteCat req => deleteCat req db
  end.

(** The responses of the calls, in order, and the store after the last. *)
Fixpoint run (cs : list call) (db : gmap string Cat)
  : list (Z * any) * gmap string Cat :=
  match cs with
  | [] => ([], db)
  | c :: cs' =>
    let '(r, db') := exec c db in
    let '(rs, db'') := run cs' db' in
    (r :: rs, db'')
  end.

(** A request with the body [body], and one for the path [/cats/{catId}]. *)
Definition bodyRequest (body : string) : Request := mkRequest body ∅.
Definition idRequest (catID : string) : Request :=
  mkRequest "" {[ "catId"%string := catID ]}.

(** ** Notions the properties are stated with *)

(** ** unicode/utf8: the well-formed sequences *)
Inductive runeAt : bytes -> Z -> nat -> Prop :=
| rune1 a0 t :
    code a0 < 0x80 ->
    runeAt (a0 :: t) (code a0) 1
| rune2 a0 a1 t :
    0xC2 <= code a0 <= 0xDF -> 0x80 <= code a1 <= 0xBF ->
    runeAt (a0 :: a1 :: t)
           (Z.lor (Z.shiftl (Z.land (code a0) 0x1F) 6) (Z.land (code a1) 0x3F)) 2
| rune3 a0 a1 a2 t :
    0xE0 <= code a0 <= 0xEF -> 0x80 <= code a1 <= 0xBF ->
    (code a0 = 0xE0 -> 0xA0 <= code a1) -> (code a0 = 0xED -> code a1 <= 0x9F) ->
    0x80 <= code a2 <= 0xBF ->
    runeAt (a0 :: a1 :: a2 :: t)
           (Z.lor (Z.lor (Z.shiftl (Z.land (code a0) 0x0F) 12)
                         (Z.shiftl (Z.land (code a1) 0x3F) 6))
                  (Z.land (code a2) 0x3F)) 3
| rune4 a0 a1 a2 a3 t :
    0xF0 <= code a0 <= 0xF4 -> 0x80 <= code a1 <= 0xBF ->
    (code a0 = 0xF0 -> 0x90 <= code a1) -> (code a0 = 0xF4 -> code a1 <= 0x8F) ->
    0x80 <= code a2 <= 0xBF -> 0x80 <= code a3 <= 0xBF ->
    runeAt (a0 :: a1 :: a2 :: a3 :: t)
           (Z.lor (Z.lor (Z.lor (Z.shiftl (Z.land (code a0) 0x07) 18)
                                (Z.shiftl (Z.land (code a1) 0x3F) 12))
                         (Z.shiftl (Z.land (code a2) 0x3F) 6))
                  (Z.land (code a3) 0x3F)) 4.


(** What a string is after [appendString] and [unquoteBytes]: a byte that
    starts no well-formed sequence has become U+FFFD. *)
Fixpoint coerceLoop (fuel : nat) (s : bytes) : bytes :=
  match s with
  | [] => []
  | _ :: rest =>
    match fuel with
    | O => []
    | S f =>
      let '(c, size) := Utf8.DecodeRune s in
      if (c =? Utf8.RuneError) && (size =? 1)%nat
      then Utf8.EncodeRune Utf8.RuneError ++ coerceLoop f rest
      else take size s ++ coerceLoop f (drop size s)
    end
  end.

Definition coerceUTF8 (s : string) : string :=
  string_of_list_ascii (coerceLoop (length (GoJSON.B s)) (GoJSON.B s)).

Definition coerceCat (c : Cat) : Cat :=
  mkCat (coerceUTF8 (Name c)) (coerceUTF8 (ID c))
        (coerceUTF8 (BirthDate c)) (coerceUTF8 (Color c)).


(** The members of the object [json.Marshal] writes for a record: a field
    with [omitempty] and the empty string has none. *)
Definition memberOf (f : GoJSON.field) (c : Cat) : list (bytes * GoJSON.json) :=
  if GoJSON.omitEmpty f && bool_decide (GoJSON.getField f c = ""%string) then []
  else [(GoJSON.B (GoJSON.fieldName f),
         GoJSON.JString (coerceLoop (length (GoJSON.B (GoJSON.getField f c)))
                                    (GoJSON.B (GoJSON.getField f c))))].

Definition membersOf (fs : list GoJSON.field) (c : Cat) : list (bytes * GoJSON.json) :=
  flat_map (fun f => memberOf f c) fs.

(** The keys of that object. *)
Definition keysOf (c : Cat) : list string :=
  "name"%string
  :: (if bool_decide (ID c = ""%string) then [] else ["id"%string])
  ++ (if bool_decide (BirthDate c = ""%string) then [] else ["birthDate"%string])
  ++ (if bool_decide (Color c = ""%string) then [] else ["color"%string]).


(** A value that is no number. *)
Definition notNumber (v : GoJSON.json) : Prop :=
  match v with
  | GoJSON.JNumber _ => False
  | _ => True
  end.


(** *** What the scanner and [GoJSON.unquoteLoop] make of one piece of the
    output of [appendStringLoop] *)
Definition ScanChunk (e : bytes) : Prop :=
  forall s' lit r,
    GoJSON.scanString GoJSON.stateInString s' = Some (lit, r) ->
    GoJSON.scanString GoJSON.stateInString (e ++ s') = Some (e ++ lit, r).

Definition UnqChunk (e o : bytes) : Prop :=
  forall f s' t,
    GoJSON.unquoteLoop f s' = Ok t -> GoJSON.unquoteLoop (S f) (e ++ s') = Ok (o ++ t).

(** *** What [GoJSON.Decode] can store

    [scanned r l]: the scanner has accepted [l] as the inside of a
    string literal, [r] being the input after the closing quote. *)
Definition scanned (r l : bytes) : Prop :=
  GoJSON.scanString GoJSON.stateInString (l ++ "034"%char :: r) = Some (l, r).

(** Well-formed UTF-8: a sequence of encoded runes. *)
Inductive WellFormed : bytes -> Prop :=
| wf_nil : WellFormed []
| wf_rune s c n : runeAt s c n -> WellFormed (drop n s) -> WellFormed s.

(** A string value, if the value is one, is well-formed UTF-8. *)
Definition validValue (v : GoJSON.json) : Prop :=
  match v with
  | GoJSON.JString t => Utf8.Valid t = true
  | _ => True
  end.

Definition validCat (c : Cat) : Prop :=
  Utf8.ValidString (Name c) = true /\ Utf8.ValidString (ID c) = true
  /\ Utf8.ValidString (BirthDate c) = true /\ Utf8.ValidString (Color c) = true.

(** ** What the sequences of calls are measured with *)
Definition seedCat : Cat := mkCat "Toto" "" "2023-04-16" "Grey".

(** The identifiers in the responses of status 201. *)
Definition createdIDs (rs : list (Z * any)) : list string :=
  flat_map (fun r => match r with
                     | (status, AString s) =>
                       if decide (status = StatusCreated) then [s] else []
                     | _ => []
                     end) rs.

Definition countStatus (status : Z) (rs : list (Z * any)) : nat :=
  length (filter (fun r => r.1 = status) rs).

Definition isDeleteOf (catID : string) (c : call) : Prop :=
  match c with
  | DeleteCat req => PathValue req "catId" = catID
  | _ => False
  end.

(** Every [createCat] of the sequence that stores a record does so under
    a key the store does not hold at that moment. *)
Fixpoint freshRun (cs : list call) (db : gmap string Cat) : Prop :=
  match cs with
  | [] => True
  | c :: cs' =>
    match c with
    | CreateCat req rnd =>
      (forall P, GoJSON.Decode (Body req) zeroCat = Ok P ->
                 db !! UUID.UUID_String (UUID.New rnd) = None)
    | _ => True
    end /\ freshRun cs' (exec c db).2
  end.

(** Every record of the store is the record of the start under id1 or
    carries its key, an identifier of [uuid.New], as its id. *)
Definition keyedByID (db : gmap string Cat) : Prop :=
  forall k c, db !! k = Some c ->
    (ID c = k /\ String.length k = 36%nat) \/ (k = "id1"%string /\ c = seedCat).


(** ** Inputs the properties are shown on *)

(** Two random sources, and the identifiers [uuid.New] makes of them. *)
Definition rnd0 : nat -> ascii := fun _ => "000"%char.
Definition rnd1 : nat -> ascii := fun _ => "001"%char.
Definition uuid0 : string := "00000000-0000-4000-8000-000000000000".
Definition uuid1 : string := "01010101-0101-4101-8101-010101010101".

(** [quoted s] is [s] between two quotation marks (byte 34). *)
Definition quoted (s : string) : string := String "034" (s +:+ String "034" "").

(** Request bodies: the JSON texts with the members name and color, and
    with the members name and id. *)
Definition bodyToto : string :=
  "{" +:+ quoted "name" +:+ ":" +:+ quoted "Toto" +:+ ","
      +:+ quoted "color" +:+ ":" +:+ quoted "Grey" +:+ "}".
Definition bodyWithID : string :=
  "{" +:+ quoted "name" +:+ ":" +:+ quoted "Tom" +:+ ","
      +:+ quoted "id" +:+ ":" +:+ quoted "client-id" +:+ "}".
Definition bodyInvalid : string := "{ invalid json }".

(** The store after a first record was created with the bytes [rnd0]. *)
Definition dbAfterToto : gmap string Cat :=
  (run [CreateCat (bodyRequest bodyToto) rnd0] catsDatabase).2.

Definition twoCreates : list call :=
  [CreateCat (bodyRequest bodyToto) rnd0; CreateCat (bodyRequest bodyWithID) rnd1].

Definition sameBytesTwice : list call :=
  [CreateCat (bodyRequest bodyToto) rnd0; CreateCat (bodyRequest bodyWithID) rnd0].

Definition createThenDelete : list call :=
  [CreateCat (bodyRequest bodyToto) rnd0; DeleteCat (idRequest uuid0)].

(** A record whose name is the single byte 0xFF, and the name after
    [json.Marshal] and [json.Unmarshal]: U+FFFD in UTF-8. *)
Definition catFF : Cat := mkCat (String "255" "") "" "" "".
Definition nameFFFD : string := String "239" (String "191" (String "189" "")).

(** * Properties *)

(** ** The store and the list of its keys *)
Section store.
Implicit Types (db aMap : gmap string Cat) (catID : string).

Lemma PathValue_idRequest catID : PathValue (idRequest catID) "catId" = catID.
Proof. unfold PathValue, idRequest; simpl. by rewrite lookup_singleton_eq. Qed.

(** The loop of [listMapKeys] leaves the keys in the reverse of the order
    of [map_to_list]. *)
Lemma listMapKeys_reverse aMap : listMapKeys aMap = reverse (map_to_list aMap).*1.
Proof.
  unfold listMapKeys. rewrite map_fold_foldr.
  induction (map_to_list aMap) as [|[k v] l IH]; simpl; [done|].
  by rewrite IH, reverse_cons.
Qed.

Lemma elem_of_listMapKeys aMap catID :
  catID ∈ listMapKeys aMap ↔ is_Some (aMap !! catID).
Proof.
  rewrite listMapKeys_reverse, elem_of_reverse, list_elem_of_fmap. split.
  - intros [[k v] [-> Hkv]]. apply elem_of_map_to_list in Hkv. by exists v.
  - intros [v Hv]. exists (catID, v). split; [done|]. by apply elem_of_map_to_list.
Qed.

Lemma NoDup_listMapKeys aMap : NoDup (listMapKeys aMap).
Proof.
  rewrite listMapKeys_reverse, reverse_Permutation. apply NoDup_fst_map_to_list.
Qed.

Lemma length_listMapKeys aMap : length (listMapKeys aMap) = size aMap.
Proof.
  rewrite listMapKeys_reverse, length_reverse, length_fmap.
  apply length_map_to_list.
Qed.

Lemma listMapKeys_catsDatabase : listMapKeys catsDatabase = ["id1"%string].
Proof. unfold listMapKeys, catsDatabase. by rewrite map_fold_singleton. Qed.

End store.

(** ** The identifiers of [uuid.New] *)
Lemma UUID_String_length (uuid : UUID.UUID) :
  String.length (UUID.UUID_String uuid) = 36%nat.
Proof. reflexivity. Qed.

Lemma UUID_String_not_id1 (uuid : UUID.UUID) : UUID.UUID_String uuid ≠ "id1"%string.
Proof.
  intros H. apply (f_equal String.length) in H.
  rewrite UUID_String_length in H. discriminate H.
Qed.

(** ** What one call of [createCat] does *)
Lemma createCat_Ok req rnd (db : gmap string Cat) P :
  GoJSON.Decode (Body req) zeroCat = Ok P ->
  createCat req rnd db =
    ((StatusCreated, AString (UUID.UUID_String (UUID.New rnd))),
     <[UUID.UUID_String (UUID.New rnd) :=
         mkCat (Name P) (UUID.UUID_String (UUID.New rnd)) (BirthDate P) (Color P)]> db).
Proof. intros H. unfold createCat. by rewrite H. Qed.

Lemma createCat_Err req rnd (db : gmap string Cat) e :
  GoJSON.Decode (Body req) zeroCat = Err e ->
  createCat req rnd db = ((StatusBadRequest, AString "Invalid JSON input"), db).
Proof. intros H. unfold createCat. by rewrite H. Qed.

(** ** Sequences of calls *)
Lemma run_cons c cs (db : gmap string Cat) :
  run (c :: cs) db = ((exec c db).1 :: (run cs (exec c db).2).1, (run cs (exec c db).2).2).
Proof. simpl. destruct (exec c db) as [r db']. simpl. by destruct (run cs db'). Qed.

Lemma exec_cases c (db : gmap string Cat) :
  (exec c db).2 = db /\ createdIDs [(exec c db).1] = []
  \/ (exists req rnd P, c = CreateCat req rnd
        /\ GoJSON.Decode (Body req) zeroCat = Ok P
        /\ exec c db = ((StatusCreated, AString (UUID.UUID_String (UUID.New rnd))),
              <[UUID.UUID_String (UUID.New rnd) :=
                  mkCat (Name P) (UUID.UUID_String (UUID.New rnd)) (BirthDate P) (Color P)]> db))
  \/ (exists req x, c = DeleteCat req /\ db !! PathValue req "catId" = Some x
        /\ exec c db = ((StatusNoContent, Nil), delete (PathValue req "catId") db)).
Proof.
  destruct c as [req|req rnd|req|req]; simpl.
  - left. done.
  - destruct (GoJSON.Decode (Body req) zeroCat) as [P|e] eqn:HD.
    + right; left. exists req, rnd, P. split; [done|]. split; [done|]. by apply createCat_Ok.
    + left. by rewrite (createCat_Err _ _ _ _ HD).
  - left. unfold getCat. by destruct (db !! _).
  - unfold deleteCat. destruct (db !! PathValue req "catId") as [x|] eqn:Hx.
    + right; right. by exists req, x.
    + left. done.
Qed.

Lemma createdIDs_cons r rs : createdIDs (r :: rs) = createdIDs [r] ++ createdIDs rs.
Proof. unfold createdIDs. simpl. by rewrite app_nil_r. Qed.

Lemma countStatus_cons status r rs :
  countStatus status (r :: rs) =
    ((if decide (r.1 = status) then 1 else 0) + countStatus status rs)%nat.
Proof. unfold countStatus. rewrite filter_cons. by destruct (decide _). Qed.

(** An identifier no [createCat] returned is a key at the end only if it
    was one at the start. *)
Lemma run_lookup_None cs : forall (db : gmap string Cat) catID,
  db !! catID = None ->
  catID ∉ createdIDs (run cs db).1 ->
  (run cs db).2 !! catID = None.
Proof.
  induction cs as [|c cs IH]; intros db catID Hdb Hnot; [done|].
  rewrite run_cons in *. cbn [fst snd] in *. rewrite createdIDs_cons in Hnot.
  apply not_elem_of_app in Hnot as [Hc Hcs].
  apply IH; [|done].
  destruct (exec_cases c db) as [[-> _]|[(req & rnd & P & -> & HP & HE)|(req & x & -> & Hx & HE)]];
    [done| |].
  - rewrite HE in *. simpl in *. rewrite lookup_insert_ne; [done|].
    intros Heq. apply Hc. rewrite Heq. set_solver.
  - rewrite HE. simpl. by apply lookup_delete_None; right.
Qed.

(** When every record is stored under a new key, the size of the store
    follows the numbers of the 201 and of the 204 responses. *)
Lemma run_size cs : forall (db : gmap string Cat),
  freshRun cs db ->
  (size (run cs db).2 + countStatus StatusNoContent (run cs db).1
   = size db + countStatus StatusCreated (run cs db).1)%nat.
Proof.
  induction cs as [|c cs IH]; intros db Hfresh; [done|].
  destruct Hfresh as [Hc Hcs]. rewrite run_cons. cbn [fst snd].
  rewrite !countStatus_cons. specialize (IH _ Hcs).
  destruct c as [req|req rnd|req|req]; simpl in *.
  - lia.
  - destruct (GoJSON.Decode (Body req) zeroCat) as [P|e] eqn:HD.
    + rewrite (createCat_Ok _ _ _ _ HD) in *. simpl in *.
      rewrite map_size_insert_None in IH by eauto. lia.
    + rewrite (createCat_Err _ _ _ _ HD) in *. simpl in *. lia.
  - unfold getCat in *. destruct (db !! _); simpl in *; lia.
  - unfold deleteCat in *. destruct (db !! PathValue req "catId") eqn:Hx; simpl in *.
    + rewrite map_size_delete_Some in IH by eauto.
      assert (size db ≠ 0%nat) by (intros Hz; apply map_size_empty_inv in Hz; by subst).
      lia.
    + lia.
Qed.

(** A key of the last store was a key at the start and no call deleted
    it, or a [createCat] returned it and no later call deleted it. *)
Lemma run_lookup_Some cs : forall (db : gmap string Cat) catID,
  is_Some ((run cs db).2 !! catID) ->
  (is_Some (db !! catID) /\ Forall (fun c => ~ isDeleteOf catID c) cs)
  \/ (exists pre req rnd post P,
        cs = pre ++ CreateCat req rnd :: post
        /\ GoJSON.Decode (Body req) zeroCat = Ok P
        /\ catID = UUID.UUID_String (UUID.New rnd)
        /\ Forall (fun c => ~ isDeleteOf catID c) post).
Proof.
  induction cs as [|c cs IH]; intros db catID Hin.
  { left. split; [done|constructor]. }
  rewrite run_cons in Hin. simpl in Hin.
  destruct (IH _ _ Hin) as [[Hdb1 Hnodel]|(pre & req & rnd & post & P & -> & HP & Hid & Hpost)].
  - destruct (exec_cases c db) as [[Heq _]|[(req & rnd & P & -> & HP & HE)|(req & x & -> & Hx & HE)]].
    + left. rewrite Heq in Hdb1. split; [done|]. constructor; [|done].
      destruct c as [| | |req]; simpl; try tauto.
      intros Hd. simpl in Heq. unfold deleteCat in Heq. rewrite Hd in Heq.
      destruct Hdb1 as [y Hy]. rewrite Hy in Heq. simpl in Heq.
      apply (f_equal (fun m => m !! catID)) in Heq.
      rewrite lookup_delete_eq, Hy in Heq. done.
    + rewrite HE in Hdb1. simpl in Hdb1.
      destruct (decide (UUID.UUID_String (UUID.New rnd) = catID)) as [Heq|Hne].
      * right. exists [], req, rnd, cs, P. repeat split; done.
      * left. rewrite lookup_insert_ne in Hdb1 by done. split; [done|].
        constructor; [simpl; tauto|done].
    + rewrite HE in Hdb1. simpl in Hdb1.
      destruct (decide (PathValue req "catId" = catID)) as [Heq|Hne].
      * rewrite Heq, lookup_delete_eq in Hdb1. by destruct Hdb1.
      * left. rewrite lookup_delete_ne in Hdb1 by done. split; [done|].
        constructor; [simpl; done|done].
  - right. exists (c :: pre), req, rnd, post, P. done.
Qed.

(** Pairwise distinct identifiers are new keys, in a store whose keys are
    id1 and identifiers returned before. *)
Lemma NoDup_freshRun cs : forall (db : gmap string Cat) (seen : list string),
  (forall k, is_Some (db !! k) -> k = "id1"%string \/ k ∈ seen) ->
  NoDup (seen ++ createdIDs (run cs db).1) ->
  freshRun cs db.
Proof.
  induction cs as [|c cs IH]; intros db seen Hdom Hnd; [done|].
  rewrite run_cons in Hnd. cbn [fst snd] in Hnd. rewrite createdIDs_cons in Hnd.
  destruct (exec_cases c db) as [[Heq Hno]|[(req & rnd & P & -> & HP & HE)|(req & x & -> & Hx & HE)]].
  - split.
    + destruct c as [|req rnd| |]; try done. intros P HP.
      cbn [exec] in Hno. rewrite (createCat_Ok _ _ _ _ HP) in Hno. discriminate Hno.
    + rewrite Hno in Hnd. apply (IH _ seen); rewrite Heq in *; done.
  - cbn [freshRun]. rewrite HE in Hnd |- *. simpl in Hnd. split.
    + intros _ _. destruct (db !! _) as [y|] eqn:Hy; [|done]. exfalso.
      destruct (Hdom _ (mk_is_Some _ _ Hy)) as [Hid1|Hseen].
      * by apply UUID_String_not_id1 in Hid1.
      * apply NoDup_app in Hnd as (_ & Hdisj & _). apply (Hdisj _ Hseen). set_solver.
    + simpl. apply (IH _ (seen ++ [UUID.UUID_String (UUID.New rnd)])).
      * intros k Hk. destruct (decide (UUID.UUID_String (UUID.New rnd) = k)) as [<-|Hne].
        -- right. set_solver.
        -- rewrite lookup_insert_ne in Hk by done. destruct (Hdom _ Hk); [by left|right; set_solver].
      * by rewrite <- app_assoc.
  - cbn [freshRun]. rewrite HE in Hnd |- *. simpl in Hnd. split; [done|]. simpl.
    apply (IH _ seen); [|done].
    intros k Hk. apply Hdom. destruct (decide (PathValue req "catId" = k)) as [<-|Hne].
    + rewrite lookup_delete_eq in Hk. by destruct Hk.
    + by rewrite lookup_delete_ne in Hk.
Qed.

Lemma keyedByID_catsDatabase : keyedByID catsDatabase.
Proof.
  intros k c Hk. unfold catsDatabase in Hk.
  apply lookup_singleton_Some in Hk as [<- <-]. by right.
Qed.

Lemma keyedByID_run cs : forall (db : gmap string Cat),
  keyedByID db -> keyedByID (run cs db).2.
Proof.
  induction cs as [|c cs IH]; intros db Hdb; [done|].
  rewrite run_cons. cbn [fst snd]. apply IH.
  destruct (exec_cases c db) as [[-> _]|[(req & rnd & P & -> & HP & HE)|(req & x & -> & Hx & HE)]];
    [done| |]; rewrite HE; cbn [fst snd]; intros k c Hk.
  - destruct (decide (UUID.UUID_String (UUID.New rnd) = k)) as [<-|Hne].
    + rewrite lookup_insert_eq in Hk. injection Hk as <-. left. split; [done|].
      apply UUID_String_length.
    + rewrite lookup_insert_ne in Hk by done. by apply Hdb.
  - apply lookup_delete_Some in Hk as [_ Hk]. by apply Hdb.
Qed.

Lemma keyedByID_unique (db : gmap string Cat) k1 k2 c1 c2 :
  keyedByID db -> db !! k1 = Some c1 -> db !! k2 = Some c2 ->
  ID c1 = ID c2 -> k1 = k2.
Proof.
  intros Hdb H1 H2 Heq.
  destruct (Hdb _ _ H1) as [[E1 L1]|[-> ->]], (Hdb _ _ H2) as [[E2 L2]|[-> ->]].
  - congruence.
  - simpl in Heq. rewrite <- E1, Heq in L1. discriminate L1.
  - simpl in Heq. rewrite <- E2, <- Heq in L2. discriminate L2.
  - done.
Qed.

(** ** Bytes, masks and shifts *)
Lemma code_range a : 0 <= code a < 256.
Proof.
  unfold code. pose proof (N_ascii_bounded a) as H. lia.
Qed.

Lemma chr_code a : chr (code a) = a.
Proof. unfold chr, code. rewrite N2Z.id. apply ascii_N_embedding. Qed.

Lemma code_chr z : 0 <= z < 256 -> code (chr z) = z.
Proof.
  intros H. unfold chr, code. rewrite N_ascii_embedding by lia. lia.
Qed.

Lemma code_inj a b : code a = code b -> a = b.
Proof. intros H. by rewrite <- (chr_code a), <- (chr_code b), H. Qed.

(** ** Masks and shifts as arithmetic *)
Lemma lor_disjoint k a b :
  0 <= k -> 0 <= a -> 0 <= b < 2 ^ k -> a mod 2 ^ k = 0 -> Z.lor a b = a + b.
Proof.
  intros Hk Ha Hb Hmod.
  assert (Z.land a b = 0) as Hland.
  { apply Z.bits_inj'. intros n Hn. rewrite Z.land_spec, Z.bits_0.
    destruct (Z.lt_ge_cases n k) as [Hlt|Hge].
    - rewrite (Z.div_mod a (2 ^ k)) by lia. rewrite Hmod, Z.add_0_r, Z.mul_comm.
      by rewrite Z.mul_pow2_bits_low.
    - rewrite andb_false_iff. right.
      destruct (Z.eq_dec b 0) as [->|Hb0]; [apply Z.bits_0|].
      apply Z.bits_above_log2; [lia|].
      apply Z.lt_le_trans with k; [|done]. apply Z.log2_lt_pow2; lia. }
  rewrite <- Z.lxor_lor by done. symmetry. by apply Z.add_nocarry_lxor.
Qed.

Lemma land_mask k a : 0 <= k -> Z.land a (2 ^ k - 1) = a mod 2 ^ k.
Proof. intros Hk. rewrite <- Z.land_ones by done. by rewrite Z.ones_equiv, Z.sub_1_r. Qed.

Module Utf8Facts.
Import Utf8.

Ltac cases_Z :=
  repeat match goal with
  | |- context [?a <? ?b] => destruct (Z.ltb_spec a b)
  | |- context [?a <=? ?b] => destruct (Z.leb_spec a b)
  | |- context [?a =? ?b] => destruct (Z.eqb_spec a b)
  end.

Lemma DecodeRune_runeAt s c n :
  DecodeRune s = (c, n) -> s <> [] -> ~ (c = RuneError /\ n = 1%nat) -> runeAt s c n.
Proof.
  destruct s as [|a0 t]; [done|]. intros H _ Hv. revert H.
  unfold DecodeRune, first. cbv zeta.
  destruct (Z.ltb_spec (code a0) 128).
  { intros [= <- <-]. by constructor. }
  cases_Z; cbn [orb andb]; try (intros [= <- <-]; exfalso; by apply Hv);
    (destruct t as [|a1 t1]; [intros [= <- <-]; exfalso; by apply Hv|]);
    cases_Z; cbn [orb andb]; try (intros [= <- <-]; exfalso; by apply Hv);
    try (intros [= <- <-]; constructor; lia);
    (destruct t1 as [|a2 t2]; [intros [= <- <-]; exfalso; by apply Hv|]);
    cases_Z; cbn [orb andb]; try (intros [= <- <-]; exfalso; by apply Hv);
    try (intros [= <- <-]; constructor; lia);
    (destruct t2 as [|a3 t3]; [intros [= <- <-]; exfalso; by apply Hv|]);
    cases_Z; cbn [orb andb]; try (intros [= <- <-]; exfalso; by apply Hv);
    try (intros [= <- <-]; constructor; lia).
Qed.

Ltac simpl_Z_tests :=
  repeat match goal with
  | |- context [?a <? ?b] =>
      first [ rewrite (proj2 (Z.ltb_lt a b)) by lia | rewrite (proj2 (Z.ltb_ge a b)) by lia ]
  | |- context [?a <=? ?b] =>
      first [ rewrite (proj2 (Z.leb_le a b)) by lia | rewrite (proj2 (Z.leb_gt a b)) by lia ]
  | |- context [?a =? ?b] =>
      first [ rewrite (proj2 (Z.eqb_eq a b)) by lia | rewrite (proj2 (Z.eqb_neq a b)) by lia ]
  end.

Lemma runeAt_DecodeRune s c n : runeAt s c n -> DecodeRune s = (c, n).
Proof.
  intros H. destruct H; unfold DecodeRune, first; cbv zeta;
    cases_Z; cbn [orb andb]; cases_Z; first [reflexivity | exfalso; lia].
Qed.

Lemma runeAt_length s c n : runeAt s c n -> (1 <= n <= length s)%nat.
Proof. intros H. destruct H; simpl; lia. Qed.

Lemma runeAt_app s c n t : runeAt s c n -> runeAt (take n s ++ t) c n.
Proof. intros H. destruct H; simpl; by constructor. Qed.

Lemma runeAt_high s c n :
  runeAt s c n -> n <> 1%nat -> Forall (fun b => 0x80 <= code b) (take n s).
Proof. intros H Hn. destruct H; [done| | |]; simpl; repeat constructor; lia. Qed.

Lemma DecodeRune_take4 s : DecodeRune (take 4 s) = DecodeRune s.
Proof. by destruct s as [|a0 [|a1 [|a2 [|a3 t]]]]. Qed.

(** The values of the masks and shifts, as arithmetic. *)
Lemma lor_add k m a b :
  m = 2 ^ k -> 0 <= k -> 0 <= a -> 0 <= b < m -> a mod m = 0 -> Z.lor a b = a + b.
Proof. intros ->. apply lor_disjoint. Qed.

Lemma land_mod k m a : m = 2 ^ k -> 0 <= k -> Z.land a (m - 1) = a mod m.
Proof. intros ->. apply land_mask. Qed.

Lemma shiftl_mul k m a : m = 2 ^ k -> 0 <= k -> Z.shiftl a k = a * m.
Proof. intros ->. apply Z.shiftl_mul_pow2. Qed.

Lemma shiftr_div k m a : m = 2 ^ k -> 0 <= k -> Z.shiftr a k = a / m.
Proof. intros ->. apply Z.shiftr_div_pow2. Qed.

Ltac to_arith :=
  rewrite ?(land_mod 5 32 _ eq_refl), ?(land_mod 4 16 _ eq_refl),
          ?(land_mod 3 8 _ eq_refl), ?(land_mod 6 64 _ eq_refl),
          ?(shiftl_mul 6 64 _ eq_refl), ?(shiftl_mul 12 4096 _ eq_refl),
          ?(shiftl_mul 18 262144 _ eq_refl),
          ?(shiftr_div 6 64 _ eq_refl), ?(shiftr_div 12 4096 _ eq_refl),
          ?(shiftr_div 18 262144 _ eq_refl) by lia.

Lemma rune2_value p0 b1 :
  Z.lor (Z.shiftl (Z.land p0 0x1F) 6) (Z.land b1 0x3F) = p0 mod 32 * 64 + b1 mod 64.
Proof.
  change 0x1F with (32 - 1). change 0x3F with (64 - 1). to_arith.
  pose proof (Z.mod_pos_bound p0 32 ltac:(lia)).
  pose proof (Z.mod_pos_bound b1 64 ltac:(lia)).
  apply (lor_add 6 64); [done|lia|lia|lia|apply Z.mod_mul; lia].
Qed.

Lemma rune3_value p0 b1 b2 :
  Z.lor (Z.lor (Z.shiftl (Z.land p0 0x0F) 12) (Z.shiftl (Z.land b1 0x3F) 6)) (Z.land b2 0x3F)
  = p0 mod 16 * 4096 + b1 mod 64 * 64 + b2 mod 64.
Proof.
  change 0x0F with (16 - 1). change 0x3F with (64 - 1). to_arith.
  pose proof (Z.mod_pos_bound p0 16 ltac:(lia)).
  pose proof (Z.mod_pos_bound b1 64 ltac:(lia)).
  pose proof (Z.mod_pos_bound b2 64 ltac:(lia)).
  rewrite (lor_add 12 4096 (p0 mod 16 * 4096)); [|done|lia|lia|lia|apply Z.mod_mul; lia].
  apply (lor_add 6 64); [done|lia|lia|lia|].
  replace (p0 mod 16 * 4096 + b1 mod 64 * 64) with ((p0 mod 16 * 64 + b1 mod 64) * 64) by lia.
  apply Z.mod_mul. lia.
Qed.

Lemma rune4_value p0 b1 b2 b3 :
  Z.lor (Z.lor (Z.lor (Z.shiftl (Z.land p0 0x07) 18) (Z.shiftl (Z.land b1 0x3F) 12))
               (Z.shiftl (Z.land b2 0x3F) 6)) (Z.land b3 0x3F)
  = p0 mod 8 * 262144 + b1 mod 64 * 4096 + b2 mod 64 * 64 + b3 mod 64.
Proof.
  change 0x07 with (8 - 1). change 0x3F with (64 - 1). to_arith.
  pose proof (Z.mod_pos_bound p0 8 ltac:(lia)).
  pose proof (Z.mod_pos_bound b1 64 ltac:(lia)).
  pose proof (Z.mod_pos_bound b2 64 ltac:(lia)).
  pose proof (Z.mod_pos_bound b3 64 ltac:(lia)).
  rewrite (lor_add 18 262144 (p0 mod 8 * 262144)); [|done|lia|lia|lia|apply Z.mod_mul; lia].
  rewrite (lor_add 12 4096 (p0 mod 8 * 262144 + b1 mod 64 * 4096)); [|done|lia|lia|lia|].
  2:{ replace (p0 mod 8 * 262144 + b1 mod 64 * 4096)
        with ((p0 mod 8 * 64 + b1 mod 64) * 4096) by lia.
      apply Z.mod_mul. lia. }
  apply (lor_add 6 64); [done|lia|lia|lia|].
  replace (p0 mod 8 * 262144 + b1 mod 64 * 4096 + b2 mod 64 * 64)
    with ((p0 mod 8 * 4096 + b1 mod 64 * 64 + b2 mod 64) * 64) by lia.
  apply Z.mod_mul. lia.
Qed.

(** The bytes [EncodeRune] writes, as arithmetic. *)
Lemma cont_byte r : Z.lor 0x80 (Z.land r 0x3F) = 128 + r mod 64.
Proof.
  change 0x3F with (64 - 1). to_arith. pose proof (Z.mod_pos_bound r 64 ltac:(lia)).
  by apply (lor_add 6 64).
Qed.

Lemma lead2_byte y : 0 <= y < 32 -> Z.lor 0xC0 y = 192 + y.
Proof. intros. by apply (lor_add 5 32). Qed.

Lemma lead3_byte y : 0 <= y < 16 -> Z.lor 0xE0 y = 224 + y.
Proof. intros. by apply (lor_add 4 16). Qed.

Lemma lead4_byte y : 0 <= y < 8 -> Z.lor 0xF0 y = 240 + y.
Proof. intros. by apply (lor_add 3 8). Qed.

Lemma chr_eq z a : z = code a -> chr z = a.
Proof. intros ->. apply chr_code. Qed.

Ltac zlia := Z.div_mod_to_equations; lia.

Ltac decide_Z_tests :=
  repeat match goal with
  | |- context [?a <? ?b] =>
      first [ rewrite (proj2 (Z.ltb_lt a b)) by zlia | rewrite (proj2 (Z.ltb_ge a b)) by zlia ]
  | |- context [?a <=? ?b] =>
      first [ rewrite (proj2 (Z.leb_le a b)) by zlia | rewrite (proj2 (Z.leb_gt a b)) by zlia ]
  | |- context [?a =? ?b] =>
      first [ rewrite (proj2 (Z.eqb_eq a b)) by zlia | rewrite (proj2 (Z.eqb_neq a b)) by zlia ]
  end.

Lemma runeAt_EncodeRune s c n : runeAt s c n -> EncodeRune c = take n s.
Proof.
  intros H. destruct H as [a0 t H0|a0 a1 t H0 H1|a0 a1 a2 t H0 H1 Hlo Hhi H2
                          |a0 a1 a2 a3 t H0 H1 Hlo Hhi H2 H3].
  - pose proof (code_range a0). unfold EncodeRune. decide_Z_tests. cbn [andb].
    simpl. by rewrite chr_code.
  - rewrite rune2_value.
    assert (code a0 mod 32 = code a0 - 192) as -> by zlia.
    assert (code a1 mod 64 = code a1 - 128) as -> by zlia.
    unfold EncodeRune. decide_Z_tests. cbn [andb]. simpl.
    rewrite cont_byte, (shiftr_div 6 64 _ eq_refl) by lia.
    rewrite lead2_byte by zlia.
    f_equal; [|f_equal]; apply chr_eq; zlia.
  - rewrite rune3_value.
    assert (code a0 mod 16 = code a0 - 224) as -> by zlia.
    assert (code a1 mod 64 = code a1 - 128) as -> by zlia.
    assert (code a2 mod 64 = code a2 - 128) as -> by zlia.
    unfold EncodeRune, MaxRune, surrogateMin, surrogateMax.
    assert (code a0 = 0xE0 \/ code a0 <> 0xE0) as [E|E] by lia;
    assert (code a0 = 0xED \/ code a0 < 0xED \/ 0xED < code a0) as [D|[D|D]] by lia;
      try (exfalso; lia); try specialize (Hlo E); try specialize (Hhi D);
      decide_Z_tests; cbn [andb orb]; decide_Z_tests; simpl;
      rewrite !cont_byte, !(shiftr_div 6 64 _ eq_refl), !(shiftr_div 12 4096 _ eq_refl) by lia;
      rewrite lead3_byte by zlia;
      (f_equal; [|f_equal; [|f_equal]]; apply chr_eq; zlia).
  - rewrite rune4_value.
    assert (code a0 mod 8 = code a0 - 240) as -> by zlia.
    assert (code a1 mod 64 = code a1 - 128) as -> by zlia.
    assert (code a2 mod 64 = code a2 - 128) as -> by zlia.
    assert (code a3 mod 64 = code a3 - 128) as -> by zlia.
    unfold EncodeRune, MaxRune, surrogateMin, surrogateMax.
    assert (code a0 = 0xF0 \/ code a0 <> 0xF0) as [E|E] by lia;
    assert (code a0 = 0xF4 \/ code a0 <> 0xF4) as [D|D] by lia;
      try (exfalso; lia); try specialize (Hlo E); try specialize (Hhi D);
      decide_Z_tests; cbn [andb orb]; decide_Z_tests; simpl;
      rewrite !cont_byte, !(shiftr_div 6 64 _ eq_refl), !(shiftr_div 12 4096 _ eq_refl),
              !(shiftr_div 18 262144 _ eq_refl) by lia;
      rewrite lead4_byte by zlia;
      (f_equal; [|f_equal; [|f_equal; [|f_equal]]]; apply chr_eq; zlia).
Qed.

(** A sequence of more than one byte is no rune below 0x80. *)
Lemma runeAt_value s c n : runeAt s c n -> n <> 1%nat -> 0x80 <= c <= MaxRune.
Proof.
  unfold MaxRune.
  intros H Hn. destruct H as [a0 t H0|a0 a1 t H0 H1|a0 a1 a2 t H0 H1 Hlo Hhi H2
                             |a0 a1 a2 a3 t H0 H1 Hlo Hhi H2 H3]; [done| | |].
  - rewrite rune2_value. zlia.
  - rewrite rune3_value. zlia.
  - rewrite rune4_value.
    assert (code a0 = 0xF4 \/ code a0 <> 0xF4) as [D|D] by lia;
      try specialize (Hhi D); zlia.
Qed.
End Utf8Facts.

(** ** encoding/json: fuel and lengths *)
Module GoJSONFacts.
Import Utf8 GoJSON.

(** *** Lengths: what the scanning functions consume *)
Lemma skipSpace_length s : (length (skipSpace s) <= length s)%nat.
Proof. induction s as [|c r IH]; simpl; [lia|]. destruct (isSpace c); simpl; lia. Qed.

Lemma expect_length c s r : expect c s = Some r -> length s = S (length r).
Proof.
  destruct s as [|x s]; simpl; [done|]. destruct (Ascii.eqb x c); [|done].
  by intros [= ->].
Qed.

Lemma expect_skipSpace_length c s r :
  expect c (skipSpace s) = Some r -> (length r < length s)%nat.
Proof. intros H%expect_length. pose proof (skipSpace_length s). lia. Qed.

Lemma expectAll_length w : forall s r, expectAll w s = Some r -> (length r <= length s)%nat.
Proof.
  induction w as [|c w IH]; simpl; intros s r H.
  - injection H as ->. lia.
  - destruct (expect c s) as [r'|] eqn:E; [|done].
    apply expect_length in E. apply IH in H. lia.
Qed.

Lemma consFst_Some {A C} (a : A) (o : option (list A * C)) l c :
  consFst a o = Some (l, c) -> exists l', l = a :: l' /\ o = Some (l', c).
Proof. destruct o as [[l' c']|]; simpl; [|done]. intros [= <- <-]. eauto. Qed.

Lemma scanString_length s : forall st lit r,
  scanString st s = Some (lit, r) -> length s = S (length lit + length r).
Proof.
  induction s as [|c s IH]; intros st lit r H; simpl in H; [done|].
  destruct st;
    repeat match type of H with
    | (if ?b then _ else _) = _ => destruct b
    end;
    try done;
    try (apply consFst_Some in H as (l' & -> & H); apply IH in H; simpl; lia).
  injection H as <- <-. simpl. lia.
Qed.

Lemma scanNumber_length s : forall st lit r,
  scanNumber st s = Some (lit, r) -> length s = (length lit + length r)%nat.
Proof.
  induction s as [|c s IH]; intros st lit r H; simpl in H.
  - destruct (numStep st " "); try done. by injection H as <- <-.
  - destruct (numStep st c) as [st'| |]; try done.
    + apply consFst_Some in H as (l' & -> & H). apply IH in H. simpl. lia.
    + by injection H as <- <-.
Qed.

(** *** [unquoteLoop] has fuel enough *)
Lemma DecodeRune_size p : p <> [] -> (1 <= (DecodeRune p).2)%nat.
Proof.
  destruct p as [|a0 t]; [done|]. intros _. unfold DecodeRune.
  repeat match goal with
  | |- context [if ?b then _ else _] => destruct b
  | |- context [match ?x with _ => _ end] => destruct x
  end; simpl; lia.
Qed.

Lemma bind_Ok {A C} (r : res A) (k : A -> res C) c :
  r ≫= k = Ok c -> exists a, r = Ok a /\ k a = Ok c.
Proof. destruct r as [a|e]; unfold mbind, res_bind; simpl; [intros H; by exists a|intros H; discriminate H]. Qed.

Lemma bind_not_fuel {A C} (r : res A) (k : A -> res C) :
  r <> Err EFuel -> (forall a, r = Ok a -> k a <> Err EFuel) -> r ≫= k <> Err EFuel.
Proof. destruct r as [a|e]; unfold mbind, res_bind; simpl; [intros _ H; by apply H|]. intros H _ [= ->]. by apply H. Qed.

Lemma unquoteLoop_fuel fuel : forall s,
  (length s <= fuel)%nat -> unquoteLoop fuel s <> Err EFuel.
Proof.
  induction fuel as [|f IH]; intros s Hlen.
  - destruct s; [done|simpl in Hlen; lia].
  - destruct s as [|c r]; [done|]. simpl in Hlen.
    assert (forall k, (1 <= k)%nat -> (length (drop k (c :: r)) <= f)%nat) as Hdrop.
    { intros k Hk. rewrite length_drop. simpl. lia. }
    assert (forall (g : bytes -> bytes) s', (length s' <= f)%nat ->
              (unquoteLoop f s' ≫= fun t => Ok (g t)) <> Err EFuel) as Hb.
    { intros g s' Hs'. apply bind_not_fuel; [by apply IH|done]. }
    cbn [unquoteLoop].
    destruct (Ascii.eqb c "\").
    + destruct r as [|e r']; [done|]. simpl in Hlen.
      repeat match goal with
      | |- (if ?b then _ else _) <> _ => destruct b
      end; try done;
      try (apply (Hb (fun t => _ :: t)); lia);
      try (apply (Hb (fun t => _ ++ t)); rewrite ?length_drop; simpl; lia).
    + destruct (_ || _); [done|]. destruct (code c <? 128).
      * apply (Hb (fun t => _ :: t)). lia.
      * pose proof (DecodeRune_size (c :: r) ltac:(done)) as Hsz.
        destruct (DecodeRune (c :: r)) as [rr size]. simpl in Hsz.
        apply (Hb (fun t => _ ++ t)). by apply Hdrop.
Qed.

Lemma unquote_fuel s : unquote s <> Err EFuel.
Proof. apply unquoteLoop_fuel. lia. Qed.

Lemma parseString_fuel s : parseString s <> Err EFuel.
Proof.
  unfold parseString. destruct (scanString stateInString s) as [[lit rest]|]; [|done].
  apply bind_not_fuel; [apply unquote_fuel|done].
Qed.

Lemma parseString_length s t r : parseString s = Ok (t, r) -> (length r < length s)%nat.
Proof.
  unfold parseString. destruct (scanString stateInString s) as [[lit rest]|] eqn:E; [|done].
  intros (t' & _ & [= _ <-])%bind_Ok. apply scanString_length in E. lia.
Qed.

(** *** The three parsing functions: what they consume, and their fuel *)
Ltac inv_bind H :=
  let x := fresh "x" in
  let Hx := fresh "Hx" in
  apply bind_Ok in H as (x & Hx & H); destruct x; cbn beta iota zeta in H.

Lemma parseNumber_length st c r v r' :
  parseNumber st c r = Ok (v, r') -> (length r' <= length r)%nat.
Proof.
  unfold parseNumber. destruct (scanNumber st r) as [[lit rest]|] eqn:E; [|done].
  intros [= _ <-]. apply scanNumber_length in E. lia.
Qed.

Lemma parseLiteral_length w v0 r v r' :
  parseLiteral w v0 r = Ok (v, r') -> (length r' <= length r)%nat.
Proof.
  unfold parseLiteral. destruct (expectAll (B w) r) as [rest|] eqn:E; [|done].
  intros [= _ <-]. by apply expectAll_length in E.
Qed.

Lemma skipSpace_cons_length s c r : skipSpace s = c :: r -> (length r < length s)%nat.
Proof. intros H. pose proof (skipSpace_length s) as Hl. rewrite H in Hl. simpl in Hl. lia. Qed.

Lemma parse_length f :
  (forall d s v r, parseValue f d s = Ok (v, r) -> (length r < length s)%nat)
  /\ (forall d s ms r, parseMembers f d s = Ok (ms, r) -> (length r < length s)%nat)
  /\ (forall d s vs r, parseElements f d s = Ok (vs, r) -> (length r < length s)%nat).
Proof.
  induction f as [|f (IHv & IHm & IHe)]; [done|]. split_and!.
  - intros d s v r H. cbn [parseValue] in H.
    destruct (skipSpace s) as [|c r0] eqn:Hs; [done|].
    apply skipSpace_cons_length in Hs.
    repeat match type of H with
    | (if ?b then _ else _) = _ => destruct b
    end; try done.
    + destruct (expect "}" (skipSpace r0)) as [r1|] eqn:E.
      * injection H as _ <-. apply expect_skipSpace_length in E. lia.
      * inv_bind H. injection H as _ <-. apply IHm in Hx. lia.
    + destruct (expect "]" (skipSpace r0)) as [r1|] eqn:E.
      * injection H as _ <-. apply expect_skipSpace_length in E. lia.
      * inv_bind H. injection H as _ <-. apply IHe in Hx. lia.
    + inv_bind H. injection H as _ <-. apply parseString_length in Hx. lia.
    + apply parseNumber_length in H. lia.
    + apply parseNumber_length in H. lia.
    + apply parseNumber_length in H. lia.
    + apply parseLiteral_length in H. lia.
    + apply parseLiteral_length in H. lia.
    + apply parseLiteral_length in H. lia.
  - intros d s ms r H. cbn [parseMembers] in H.
    destruct (expect "034" (skipSpace s)) as [r0|] eqn:E0; [|done].
    apply expect_skipSpace_length in E0.
    inv_bind H. apply parseString_length in Hx.
    destruct (expect ":" (skipSpace _)) as [r2|] eqn:E2; [|done].
    apply expect_skipSpace_length in E2.
    inv_bind H. apply IHv in Hx0.
    destruct (expect "," (skipSpace _)) as [r4|] eqn:E4.
    + apply expect_skipSpace_length in E4. inv_bind H. injection H as _ <-.
      apply IHm in Hx1. lia.
    + destruct (expect "}" (skipSpace _)) as [r4|] eqn:E5; [|done].
      apply expect_skipSpace_length in E5. injection H as _ <-. lia.
  - intros d s vs r H. cbn [parseElements] in H.
    inv_bind H. apply IHv in Hx.
    destruct (expect "," (skipSpace _)) as [r2|] eqn:E2.
    + apply expect_skipSpace_length in E2. inv_bind H. injection H as _ <-.
      apply IHe in Hx0. lia.
    + destruct (expect "]" (skipSpace _)) as [r2|] eqn:E3; [|done].
      apply expect_skipSpace_length in E3. injection H as _ <-. lia.
Qed.

Lemma parseNumber_fuel st c r : parseNumber st c r <> Err EFuel.
Proof. unfold parseNumber. by destruct (scanNumber st r) as [[? ?]|]. Qed.

Lemma parseLiteral_fuel w v r : parseLiteral w v r <> Err EFuel.
Proof. unfold parseLiteral. by destruct (expectAll (B w) r). Qed.

Lemma parse_fuel f :
  (forall d s, (2 * length s < f)%nat -> parseValue f d s <> Err EFuel)
  /\ (forall d s, (2 * length s + 1 < f)%nat -> parseMembers f d s <> Err EFuel)
  /\ (forall d s, (2 * length s + 1 < f)%nat -> parseElements f d s <> Err EFuel).
Proof.
  induction f as [|f (IHv & IHm & IHe)]; [split_and!; intros; lia|].
  destruct (parse_length f) as (Lv & Lm & Le). split_and!.
  - intros d s Hf. cbn [parseValue].
    destruct (skipSpace s) as [|c r0] eqn:Hs; [done|].
    apply skipSpace_cons_length in Hs.
    repeat match goal with
    | |- (if ?b then _ else _) <> _ => destruct b
    end; try done;
    try apply parseNumber_fuel; try apply parseLiteral_fuel.
    + destruct (expect "}" (skipSpace r0)); [done|].
      apply bind_not_fuel; [apply IHm; lia|]. by intros [? ?] _.
    + destruct (expect "]" (skipSpace r0)); [done|].
      apply bind_not_fuel; [apply IHe; lia|]. by intros [? ?] _.
    + apply bind_not_fuel; [apply parseString_fuel|]. by intros [? ?] _.
  - intros d s Hf. cbn [parseMembers].
    destruct (expect "034" (skipSpace s)) as [r0|] eqn:E0; [|done].
    apply expect_skipSpace_length in E0.
    apply bind_not_fuel; [apply parseString_fuel|]. intros [key r1] Hk.
    apply parseString_length in Hk. cbn beta iota zeta.
    destruct (expect ":" (skipSpace r1)) as [r2|] eqn:E2; [|done].
    apply expect_skipSpace_length in E2.
    apply bind_not_fuel; [apply IHv; lia|]. intros [v r3] Hv.
    apply Lv in Hv. cbn beta iota zeta.
    destruct (expect "," (skipSpace r3)) as [r4|] eqn:E4.
    + apply expect_skipSpace_length in E4.
      apply bind_not_fuel; [apply IHm; lia|]. by intros [? ?] _.
    + by destruct (expect "}" (skipSpace r3)).
  - intros d s Hf. cbn [parseElements].
    apply bind_not_fuel; [apply IHv; lia|]. intros [v r1] Hv.
    apply Lv in Hv. cbn beta iota zeta.
    destruct (expect "," (skipSpace r1)) as [r2|] eqn:E2.
    + apply expect_skipSpace_length in E2.
      apply bind_not_fuel; [apply IHe; lia|]. by intros [? ?] _.
    + by destruct (expect "]" (skipSpace r1)).
Qed.

Lemma readValue_fuel s : readValue s <> Err EFuel.
Proof. unfold readValue. apply (parse_fuel (S (2 * length s))). lia. Qed.

Lemma decodeObject_fuel ms : forall c, decodeObject ms c <> Err EFuel.
Proof.
  induction ms as [|[key v] ms IH]; intros c; simpl; [done|].
  destruct (fieldByName key) as [fd|]; [|apply IH].
  apply bind_not_fuel; [|intros; apply IH].
  unfold storeField. by destruct v.
Qed.

Lemma decodeValue_fuel j c : decodeValue j c <> Err EFuel.
Proof. destruct j; simpl; try done. apply decodeObject_fuel. Qed.

(** [EFuel] never leaves the two entry points. *)
Lemma Decode_fuel body v : Decode body v <> Err EFuel.
Proof.
  unfold Decode. apply bind_not_fuel; [apply readValue_fuel|].
  intros [j r] _. apply decodeValue_fuel.
Qed.

Lemma Unmarshal_fuel data v : Unmarshal data v <> Err EFuel.
Proof.
  unfold Unmarshal. apply bind_not_fuel; [apply readValue_fuel|].
  intros [j r] _. cbn beta iota zeta. destruct (skipSpace r); [apply decodeValue_fuel|done].
Qed.
End GoJSONFacts.

(** ** encoding/json: bytes after the first value *)
Module GoJSONApp.
Import Utf8 GoJSON GoJSONFacts.

(** *** Bytes after the value do not change what is read *)
Lemma skipSpace_app s c r t : skipSpace s = c :: r -> skipSpace (s ++ t) = c :: r ++ t.
Proof.
  induction s as [|x s IH]; simpl; [done|].
  destruct (isSpace x); [done|]. by intros [= -> ->].
Qed.

Lemma expect_app c s r t : expect c s = Some r -> expect c (s ++ t) = Some (r ++ t).
Proof.
  destruct s as [|x s]; simpl; [done|]. destruct (Ascii.eqb x c); [|done]. by intros [= ->].
Qed.

Lemma expectAll_app w : forall s r t,
  expectAll w s = Some r -> expectAll w (s ++ t) = Some (r ++ t).
Proof.
  induction w as [|c w IH]; simpl; intros s r t H; [by injection H as ->|].
  destruct (expect c s) as [r'|] eqn:E; [|done].
  rewrite (expect_app _ _ _ t E). by apply IH.
Qed.

Lemma scanString_app s : forall st lit r t,
  scanString st s = Some (lit, r) -> scanString st (s ++ t) = Some (lit, r ++ t).
Proof.
  induction s as [|c s IH]; intros st lit r t H; simpl in H |- *; [done|].
  destruct st;
    repeat match type of H with
    | (if ?b then _ else _) = _ => destruct b
    end;
    try done;
    try (apply consFst_Some in H as (l' & -> & H); by rewrite (IH _ _ _ t H)).
  by injection H as <- <-.
Qed.

Lemma scanNumber_app s : forall st lit r t,
  scanNumber st s = Some (lit, r) -> r <> [] ->
  scanNumber st (s ++ t) = Some (lit, r ++ t).
Proof.
  induction s as [|c s IH]; intros st lit r t H Hr; simpl in H.
  - destruct (numStep st " "); try done. by injection H as <- <-.
  - simpl. destruct (numStep st c) as [st'| |]; try done.
    + apply consFst_Some in H as (l' & -> & H). by rewrite (IH _ _ _ t H Hr).
    + by injection H as <- <-.
Qed.

Lemma parseString_app s u r t :
  parseString s = Ok (u, r) -> parseString (s ++ t) = Ok (u, r ++ t).
Proof.
  unfold parseString. destruct (scanString stateInString s) as [[lit rest]|] eqn:E; [|done].
  rewrite (scanString_app _ _ _ _ t E).
  destruct (unquote lit); simpl; [|done]. by intros [= -> ->].
Qed.

Lemma parseLiteral_app w v0 s v r t :
  parseLiteral w v0 s = Ok (v, r) -> parseLiteral w v0 (s ++ t) = Ok (v, r ++ t).
Proof.
  unfold parseLiteral. destruct (expectAll (B w) s) as [rest|] eqn:E; [|done].
  rewrite (expectAll_app _ _ _ t E). by intros [= -> ->].
Qed.

Lemma parseNumber_app st c s v r t :
  parseNumber st c s = Ok (v, r) -> r <> [] ->
  parseNumber st c (s ++ t) = Ok (v, r ++ t).
Proof.
  unfold parseNumber. destruct (scanNumber st s) as [[lit rest]|] eqn:E; [|done].
  intros [= <- <-] Hr. by rewrite (scanNumber_app _ _ _ _ t E Hr).
Qed.

Lemma parseNumber_not_notNumber st c s v r :
  parseNumber st c s = Ok (v, r) -> ~ notNumber v.
Proof.
  unfold parseNumber. destruct (scanNumber st s) as [[lit rest]|]; [|done].
  intros [= <- _]. simpl. tauto.
Qed.

(** After a value inside an array or an object the scanner finds a byte. *)
Lemma expect_skipSpace_Some c s r : expect c (skipSpace s) = Some r -> s <> [].
Proof. intros H ->. done. Qed.

Lemma expect_skipSpace_app c c' s r t :
  expect c (skipSpace s) = Some r ->
  expect c' (skipSpace (s ++ t)) = if Ascii.eqb c c' then Some (r ++ t) else None.
Proof.
  destruct (skipSpace s) as [|x r0] eqn:E; [done|]. simpl.
  destruct (Ascii.eqb x c) eqn:Hx; [|done]. intros [= ->].
  rewrite (skipSpace_app _ _ _ t E). simpl.
  apply Ascii.eqb_eq in Hx as ->. reflexivity.
Qed.

Lemma expect_skipSpace_app_None c s t :
  skipSpace s <> [] -> expect c (skipSpace s) = None ->
  expect c (skipSpace (s ++ t)) = None.
Proof.
  destruct (skipSpace s) as [|x r0] eqn:E; [done|]. intros _. simpl.
  rewrite (skipSpace_app _ _ _ t E). simpl. by destruct (Ascii.eqb x c).
Qed.

Lemma parseValue_nonempty f d s x : parseValue f d s = Ok x -> skipSpace s <> [].
Proof. destruct f; [done|]. cbn [parseValue]. by destruct (skipSpace s). Qed.

Lemma parseMembers_nonempty f d s x : parseMembers f d s = Ok x -> skipSpace s <> [].
Proof. destruct f; [done|]. cbn [parseMembers]. by destruct (skipSpace s). Qed.

Lemma parseElements_nonempty f d s x : parseElements f d s = Ok x -> skipSpace s <> [].
Proof.
  destruct f; [done|]. cbn [parseElements]. intros H. inv_bind H.
  by apply parseValue_nonempty in Hx.
Qed.

Ltac bind_step := cbn [mbind res_bind]; cbn beta iota zeta.

Lemma parse_app f :
  (forall d s v r t, parseValue f d s = Ok (v, r) -> r <> [] \/ notNumber v ->
                     parseValue f d (s ++ t) = Ok (v, r ++ t))
  /\ (forall d s ms r t, parseMembers f d s = Ok (ms, r) ->
                         parseMembers f d (s ++ t) = Ok (ms, r ++ t))
  /\ (forall d s vs r t, parseElements f d s = Ok (vs, r) ->
                         parseElements f d (s ++ t) = Ok (vs, r ++ t)).
Proof.
  induction f as [|f (IHv & IHm & IHe)]; [done|]. split_and!.
  - intros d s v r t H Hr. cbn [parseValue] in H |- *.
    destruct (skipSpace s) as [|c r0] eqn:Hs; [done|].
    rewrite (skipSpace_app _ _ _ t Hs). revert H.
    destruct (Ascii.eqb c "{").
    { destruct (maxNestingDepth <? d + 1); [done|].
      destruct (expect "}" (skipSpace r0)) as [r1|] eqn:E.
      - intros [= <- <-]. by rewrite (expect_skipSpace_app _ "}" _ _ t E).
      - intros H. inv_bind H. injection H as <- <-.
        rewrite (expect_skipSpace_app_None _ _ t (parseMembers_nonempty _ _ _ _ Hx) E).
        by rewrite (IHm _ _ _ _ t Hx). }
    destruct (Ascii.eqb c "[").
    { destruct (maxNestingDepth <? d + 1); [done|].
      destruct (expect "]" (skipSpace r0)) as [r1|] eqn:E.
      - intros [= <- <-]. by rewrite (expect_skipSpace_app _ "]" _ _ t E).
      - intros H. inv_bind H. injection H as <- <-.
        rewrite (expect_skipSpace_app_None _ _ t (parseElements_nonempty _ _ _ _ Hx) E).
        by rewrite (IHe _ _ _ _ t Hx). }
    destruct (Ascii.eqb c "034").
    { intros H. inv_bind H. injection H as <- <-. by rewrite (parseString_app _ _ _ t Hx). }
    assert (forall st, parseNumber st c r0 = Ok (v, r) ->
                       parseNumber st c (r0 ++ t) = Ok (v, r ++ t)) as Hnum.
    { intros st H. apply parseNumber_app; [done|].
      destruct Hr as [Hr|Hr]; [done|]. by apply parseNumber_not_notNumber in H. }
    repeat match goal with
    | |- (if ?b then _ else _) = _ -> _ => destruct b
    end; try done; try apply Hnum; apply parseLiteral_app.
  - intros d s ms r t H. cbn [parseMembers] in H |- *.
    destruct (expect "034" (skipSpace s)) as [r0|] eqn:E0; [|done].
    rewrite (expect_skipSpace_app _ "034" _ _ t E0). cbn [Ascii.eqb Bool.eqb].
    inv_bind H. rewrite (parseString_app _ _ _ t Hx). bind_step.
    destruct (expect ":" (skipSpace _)) as [r2|] eqn:E2; [|done].
    rewrite (expect_skipSpace_app _ ":" _ _ t E2). cbn [Ascii.eqb Bool.eqb].
    inv_bind H.
    destruct (expect "," (skipSpace _)) as [r4|] eqn:E4.
    + rewrite (IHv _ _ _ _ t Hx0 (or_introl (expect_skipSpace_Some _ _ _ E4))). bind_step.
      rewrite (expect_skipSpace_app _ "," _ _ t E4). cbn [Ascii.eqb Bool.eqb].
      inv_bind H. injection H as <- <-. by rewrite (IHm _ _ _ _ t Hx1).
    + destruct (expect "}" (skipSpace _)) as [r4|] eqn:E5; [|done].
      injection H as <- <-.
      rewrite (IHv _ _ _ _ t Hx0 (or_introl (expect_skipSpace_Some _ _ _ E5))). bind_step.
      rewrite (expect_skipSpace_app _ "," _ _ t E5). cbn [Ascii.eqb Bool.eqb].
      by rewrite (expect_skipSpace_app _ "}" _ _ t E5).
  - intros d s vs r t H. cbn [parseElements] in H |- *.
    inv_bind H.
    destruct (expect "," (skipSpace _)) as [r2|] eqn:E2.
    + rewrite (IHv _ _ _ _ t Hx (or_introl (expect_skipSpace_Some _ _ _ E2))). bind_step.
      rewrite (expect_skipSpace_app _ "," _ _ t E2). cbn [Ascii.eqb Bool.eqb].
      inv_bind H. injection H as <- <-. by rewrite (IHe _ _ _ _ t Hx0).
    + destruct (expect "]" (skipSpace _)) as [r2|] eqn:E3; [|done].
      injection H as <- <-.
      rewrite (IHv _ _ _ _ t Hx (or_introl (expect_skipSpace_Some _ _ _ E3))). bind_step.
      rewrite (expect_skipSpace_app _ "," _ _ t E3). cbn [Ascii.eqb Bool.eqb].
      by rewrite (expect_skipSpace_app _ "]" _ _ t E3).
Qed.

(** More fuel gives the same result. *)
Lemma parse_mono f :
  (forall d s x f', (f <= f')%nat -> parseValue f d s = Ok x -> parseValue f' d s = Ok x)
  /\ (forall d s x f', (f <= f')%nat -> parseMembers f d s = Ok x -> parseMembers f' d s = Ok x)
  /\ (forall d s x f', (f <= f')%nat -> parseElements f d s = Ok x -> parseElements f' d s = Ok x).
Proof.
  induction f as [|f (IHv & IHm & IHe)]; [done|]. split_and!.
  - intros d s x [|f'] Hf H; [lia|]. cbn [parseValue] in H |- *.
    destruct (skipSpace s) as [|c r0]; [done|]. revert H.
    repeat match goal with
    | |- (if ?b then _ else _) = _ -> _ => destruct b
    end; try done.
    + destruct (expect "}" (skipSpace r0)); [done|]. intros H. inv_bind H.
      by rewrite (IHm _ _ _ f' ltac:(lia) Hx).
    + destruct (expect "]" (skipSpace r0)); [done|]. intros H. inv_bind H.
      by rewrite (IHe _ _ _ f' ltac:(lia) Hx).
  - intros d s x [|f'] Hf H; [lia|]. cbn [parseMembers] in H |- *.
    destruct (expect "034" (skipSpace s)) as [r0|]; [|done].
    inv_bind H. rewrite Hx. bind_step.
    destruct (expect ":" (skipSpace _)) as [r2|]; [|done].
    inv_bind H. rewrite (IHv _ _ _ f' ltac:(lia) Hx0). bind_step.
    destruct (expect "," (skipSpace _)) as [r4|]; [|done].
    inv_bind H. by rewrite (IHm _ _ _ f' ltac:(lia) Hx1).
  - intros d s x [|f'] Hf H; [lia|]. cbn [parseElements] in H |- *.
    inv_bind H. rewrite (IHv _ _ _ f' ltac:(lia) Hx). bind_step.
    destruct (expect "," (skipSpace _)) as [r2|]; [|done].
    inv_bind H. by rewrite (IHe _ _ _ f' ltac:(lia) Hx0).
Qed.

Lemma B_app (s t : string) : B (s +:+ t) = B s ++ B t.
Proof. unfold B. induction s as [|a s IH]; simpl; [done|]. by rewrite IH. Qed.

Lemma decodeValue_notNumber j v c : decodeValue j v = Ok c -> notNumber j.
Proof. by destruct j. Qed.

Lemma readValue_app s j r t :
  readValue s = Ok (j, r) -> notNumber j -> readValue (s ++ t) = Ok (j, r ++ t).
Proof.
  unfold readValue. intros H Hj.
  destruct (parse_app (S (2 * length s))) as (Hv & _).
  apply (Hv _ _ _ _ t) in H; [|by right].
  destruct (parse_mono (S (2 * length s))) as (Hm & _).
  apply (Hm _ _ _ (S (2 * length (s ++ t)))) in H; [done|].
  rewrite length_app. lia.
Qed.

(** What [Decode] makes of a body it makes of every longer body. *)
Lemma Decode_app body t v c :
  Decode body v = Ok c -> Decode (body +:+ t) v = Ok c.
Proof.
  unfold Decode. intros H. inv_bind H. rewrite B_app.
  rewrite (readValue_app _ _ _ (B t) Hx (decodeValue_notNumber _ _ _ H)). by bind_step.
Qed.

(** [Unmarshal] accepts the texts [Decode] accepts that have nothing but
    space after the value. *)
Lemma Unmarshal_Decode data v c : Unmarshal data v = Ok c -> Decode data v = Ok c.
Proof.
  unfold Unmarshal, Decode. intros H. inv_bind H. rewrite Hx. bind_step.
  by destruct (skipSpace _).
Qed.
End GoJSONApp.

(** ** encoding/json: a string written and read back *)
Module RoundTrip.
Import Utf8 GoJSON GoJSONFacts GoJSONApp Utf8Facts.

Lemma escapeByte_chunk b :
  code b < 0x80 -> htmlSafeSet b = false ->
  ScanChunk (escapeByte b) /\ UnqChunk (escapeByte b) [b].
Proof.
  destruct b as [[] [] [] [] [] [] [] []]; intros Hlt Hsafe;
    try (vm_compute in Hlt; discriminate Hlt);
    try (vm_compute in Hsafe; discriminate Hsafe);
    (split;
     [ intros s' lit r H;
       match goal with
       | |- context [escapeByte ?b] =>
           let e := eval vm_compute in (escapeByte b) in change (escapeByte b) with e
       end;
       cbn; rewrite H; reflexivity
     | intros f s' t H;
       match goal with
       | |- context [escapeByte ?b] =>
           let e := eval vm_compute in (escapeByte b) in change (escapeByte b) with e
       end;
       cbn; rewrite ?drop_0, H; vm_compute; reflexivity ]).
Qed.

Lemma safeByte_chunk b :
  code b < 0x80 -> htmlSafeSet b = true -> ScanChunk [b] /\ UnqChunk [b] [b].
Proof.
  destruct b as [[] [] [] [] [] [] [] []]; intros Hlt Hsafe;
    try (vm_compute in Hlt; discriminate Hlt);
    try (vm_compute in Hsafe; discriminate Hsafe);
    (split;
     [ intros s' lit r H; cbn; rewrite H; reflexivity
     | intros f s' t H; cbn; rewrite H; vm_compute; reflexivity ]).
Qed.

Lemma eqb_code a b : Ascii.eqb a b = (code a =? code b).
Proof.
  destruct (Ascii.eqb_spec a b) as [->|Hne].
  - by rewrite Z.eqb_refl.
  - symmetry. apply Z.eqb_neq. intros H. by apply Hne, code_inj.
Qed.

Lemma scanString_high b s' :
  0x80 <= code b ->
  scanString stateInString (b :: s') = consFst b (scanString stateInString s').
Proof.
  intros Hb. cbn [scanString]. rewrite !eqb_code.
  change (code "034") with 34. change (code "\") with 92.
  by decide_Z_tests.
Qed.

Lemma highBytes_chunk l : Forall (fun b => 0x80 <= code b) l -> ScanChunk l.
Proof.
  induction 1 as [|b l Hb Hl IH]; intros s' lit r H; [done|].
  cbn [app]. rewrite scanString_high by done. by rewrite (IH _ _ _ H).
Qed.

Lemma length_take_rune s c n : runeAt s c n -> length (take n s) = n.
Proof. intros H%runeAt_length. rewrite length_take. apply Nat.min_l. lia. Qed.

Lemma rune_chunk s c n :
  runeAt s c n -> n <> 1%nat ->
  ScanChunk (take n s) /\ UnqChunk (take n s) (take n s).
Proof.
  intros H Hn. split; [by apply highBytes_chunk, (runeAt_high s c)|].
  intros f s' t Ht.
  pose proof (runeAt_DecodeRune _ _ _ (runeAt_app _ _ _ s' H)) as HD.
  pose proof (length_take_rune _ _ _ H) as Hlen.
  pose proof (runeAt_length _ _ _ H) as Hbound.
  pose proof (runeAt_high _ _ _ H Hn) as Hhigh.
  rewrite <- (runeAt_EncodeRune _ _ _ H) at 2.
  destruct (take n s) as [|a0 e] eqn:E; [simpl in Hlen; lia|].
  apply Forall_cons in Hhigh as [Ha0 _].
  cbn [app unquoteLoop]. rewrite !eqb_code.
  change (code "034") with 34. change (code "\") with 92.
  decide_Z_tests. cbn [orb].
  change (a0 :: e ++ s') with ((a0 :: e) ++ s'). rewrite HD.
  rewrite drop_app_length' by done. by rewrite Ht.
Qed.

Lemma separator_chunk c :
  c = 0x2028 \/ c = 0x2029 ->
  ScanChunk (B "\u202" ++ [hexDigit (Z.land c 0xF)])
  /\ UnqChunk (B "\u202" ++ [hexDigit (Z.land c 0xF)]) (EncodeRune c).
Proof.
  intros [-> | ->];
    (split;
     [ intros s' lit r H; cbn; rewrite H; reflexivity
     | intros f s' t H; cbn; rewrite ?drop_0, H; vm_compute; reflexivity ]).
Qed.

Lemma chunk_compose E o q' rest :
  E <> [] -> ScanChunk E -> UnqChunk E o -> ScanChunk q' ->
  (forall fu, (length q' <= fu)%nat -> unquoteLoop fu q' = Ok rest) ->
  ScanChunk (E ++ q')
  /\ (forall fu, (length (E ++ q') <= fu)%nat -> unquoteLoop fu (E ++ q') = Ok (o ++ rest)).
Proof.
  intros HE HsE HuE Hsq Huq. split.
  - intros s' lit r H. rewrite <- !app_assoc. by apply HsE, Hsq.
  - intros fu Hfu. rewrite length_app in Hfu.
    destruct E as [|e0 E]; [done|]. simpl in Hfu.
    destruct fu as [|fu]; [lia|]. apply HuE, Huq. lia.
Qed.

Lemma escapeByte_nonempty b : escapeByte b <> [].
Proof.
  unfold escapeByte.
  repeat match goal with |- context [if ?x then _ else _] => destruct x end; done.
Qed.

Lemma replacement_chunk :
  ScanChunk (B "\ufffd") /\ UnqChunk (B "\ufffd") (EncodeRune RuneError).
Proof.
  split;
    [ intros s' lit r H; cbn; rewrite H; reflexivity
    | intros f s' t H; cbn; rewrite ?drop_0, H; vm_compute; reflexivity ].
Qed.

(** *** The scanner and [unquoteLoop] on the output of [appendStringLoop] *)
Lemma appendStringLoop_unquote n : forall s fa fc,
  (length s <= n)%nat -> (length s <= fa)%nat -> (length s <= fc)%nat ->
  ScanChunk (appendStringLoop fa s)
  /\ (forall fu, (length (appendStringLoop fa s) <= fu)%nat ->
                 unquoteLoop fu (appendStringLoop fa s) = Ok (coerceLoop fc s)).
Proof.
  induction n as [|n IH]; intros s fa fc Hn Hfa Hfc.
  { destruct s; [|simpl in Hn; lia].
    destruct fa, fc; simpl; (split; [by intros ? ? ?|by intros [|?] _]). }
  destruct s as [|b rest].
  { destruct fa, fc; simpl; (split; [by intros ? ? ?|by intros [|?] _]). }
  destruct fa as [|fa]; [simpl in Hfa; lia|]. destruct fc as [|fc]; [simpl in Hfc; lia|].
  cbn [appendStringLoop coerceLoop].
  destruct (DecodeRune (b :: rest)) as [c size] eqn:HD.
  destruct ((c =? RuneError) && (size =? 1)%nat) eqn:Hbad.
  - (* a byte that starts no sequence *)
    apply andb_true_iff in Hbad as [Hc%Z.eqb_eq Hs%Nat.eqb_eq]. subst c size.
    destruct (Z.ltb_spec (code b) 0x80) as [Hlt|Hge].
    { exfalso. unfold DecodeRune in HD. rewrite (proj2 (Z.ltb_lt _ _) Hlt) in HD.
      injection HD as HD. unfold RuneError in HD. lia. }
    rewrite DecodeRune_take4, HD. cbn [Z.eqb Nat.eqb andb Pos.eqb RuneError].
    change (if (65533 =? 65533) && (1 =? 1)%nat then ?a else ?b) with a.
    destruct (IH rest fa fc) as [IHs IHu]; [simpl in *; lia..|].
    destruct replacement_chunk as [Hs Hu].
    by apply chunk_compose.
  - assert (runeAt (b :: rest) c size) as Hrune.
    { apply DecodeRune_runeAt; [done..|]. intros [-> ->]. done. }
    pose proof (runeAt_length _ _ _ Hrune) as Hsize.
    destruct (IH (drop size (b :: rest)) fa fc) as [IHs IHu];
      [rewrite length_drop; simpl in *; lia..|].
    destruct (Z.ltb_spec (code b) 0x80) as [Hlt|Hge].
    + (* one byte *)
      assert (size = 1%nat) as ->.
      { inversion Hrune; subst; try done; lia. }
      change (drop 1 (b :: rest)) with rest in *.
      change (take 1 (b :: rest)) with [b].
      destruct (htmlSafeSet b) eqn:Hsafe.
      * destruct (safeByte_chunk b Hlt Hsafe) as [Hs Hu].
        by apply (chunk_compose [b] [b]).
      * destruct (escapeByte_chunk b Hlt Hsafe) as [Hs Hu].
        apply (chunk_compose (escapeByte b) [b]); try done. apply escapeByte_nonempty.
    + (* a longer sequence *)
      assert (size <> 1%nat) as Hn1.
      { intros ->. inversion Hrune; subst. lia. }
      rewrite DecodeRune_take4, HD, Hbad.
      pose proof (length_take_rune _ _ _ Hrune) as Hl.
      pose proof (runeAt_EncodeRune _ _ _ Hrune) as Henc.
      destruct (rune_chunk _ _ _ Hrune Hn1) as [Hs Hu].
      revert IHs IHu Hl Henc Hs Hu.
      generalize (take size (b :: rest)) (drop size (b :: rest)). intros o d.
      intros IHs IHu Hl Henc Hs Hu.
      destruct ((c =? 0x2028) || (c =? 0x2029)) eqn:Hsep.
      * assert (c = 0x2028 \/ c = 0x2029) as Hc.
        { apply orb_true_iff in Hsep as [H|H]; apply Z.eqb_eq in H; auto. }
        destruct (separator_chunk c Hc) as [Hs' Hu'].
        rewrite Henc in Hu'.
        rewrite (app_assoc (B "\u202")).
        by apply chunk_compose.
      * apply chunk_compose; try done.
        intros ->. simpl in Hl. lia.
Qed.

(** A well-formed string is left as it is. *)
Lemma coerceLoop_valid n : forall s fv fc,
  (length s <= n)%nat -> (length s <= fc)%nat ->
  validLoop fv s = true -> coerceLoop fc s = s.
Proof.
  induction n as [|n IH]; intros s fv fc Hn Hfc Hv.
  { destruct s; [|simpl in Hn; lia]. by destruct fc. }
  destruct s as [|b rest]; [by destruct fc|].
  destruct fv as [|fv]; [done|]. destruct fc as [|fc]; [simpl in Hfc; lia|].
  cbn [validLoop coerceLoop] in *.
  destruct (DecodeRune (b :: rest)) as [c size] eqn:HD.
  destruct ((c =? RuneError) && (size =? 1)%nat) eqn:Hbad; [done|].
  assert (runeAt (b :: rest) c size) as Hrune.
  { apply DecodeRune_runeAt; [done..|]. intros [-> ->]. done. }
  pose proof (runeAt_length _ _ _ Hrune) as Hsize.
  rewrite (IH _ fv fc); [apply take_drop| | |done]; rewrite length_drop; simpl in *; lia.
Qed.

Lemma length_B s : length (B s) = String.length s.
Proof. unfold B. induction s as [|a s IH]; simpl; [done|]. by rewrite IH. Qed.

Lemma coerceUTF8_valid s : ValidString s = true -> coerceUTF8 s = s.
Proof.
  unfold ValidString, Valid, coerceUTF8. change (list_ascii_of_string s) with (B s).
  intros H. rewrite (coerceLoop_valid (length (B s)) (B s) (length (B s)) (length (B s)));
    [apply string_of_list_ascii_of_string|done..].
Qed.

(** A quoted string, from the byte after its opening quote. *)
Lemma parseString_appendString s rest :
  parseString (appendStringLoop (length s) s ++ "034"%char :: rest)
  = Ok (coerceLoop (length s) s, rest).
Proof.
  destruct (appendStringLoop_unquote (length s) s (length s) (length s)) as [Hs Hu]; [lia..|].
  unfold parseString.
  rewrite (Hs ("034"%char :: rest) [] rest eq_refl), app_nil_r.
  unfold unquote. by rewrite Hu.
Qed.
End RoundTrip.

(** ** encoding/json: a record written and read back *)
Module MarshalFacts.
Import Utf8 GoJSON GoJSONFacts GoJSONApp Utf8Facts RoundTrip.

Lemma coerce_fieldName f :
  coerceLoop (length (B (fieldName f))) (B (fieldName f)) = B (fieldName f).
Proof. by destruct f. Qed.

Lemma parseMembers_one fuel d key val tail :
  parseMembers (S (S fuel)) d (appendString (B (fieldName key)) ++ ":"%char :: appendString val ++ tail)
  = let m := (B (fieldName key), JString (coerceLoop (length val) val)) in
    match expect "," (skipSpace tail) with
    | Some r4 => '(ms, r5) ← parseMembers (S fuel) d r4; Ok (m :: ms, r5)
    | None =>
      match expect "}" (skipSpace tail) with
      | Some r4 => Ok ([m], r4)
      | None => Err ESyntax
      end
    end.
Proof.
  unfold appendString. cbn [parseMembers app skipSpace]. rewrite <- !app_assoc. cbn [app].
  change (isSpace "034") with false. cbn [expect]. change (Ascii.eqb "034" "034") with true.
  cbn iota. rewrite parseString_appendString, coerce_fieldName. bind_step.
  cbn [skipSpace]. change (isSpace ":") with false. cbn [expect].
  change (Ascii.eqb ":" ":") with true. cbn iota.
  cbn [parseValue skipSpace]. change (isSpace "034") with false. cbn iota.
  change (Ascii.eqb "034" "{") with false. change (Ascii.eqb "034" "[") with false.
  change (Ascii.eqb "034" "034") with true. cbn iota.
  rewrite parseString_appendString. by bind_step.
Qed.

Lemma memberOf_cases f c :
  (omitEmpty f && bool_decide (getField f c = ""%string) = true /\ memberOf f c = [])
  \/ (omitEmpty f && bool_decide (getField f c = ""%string) = false
      /\ memberOf f c = [(B (fieldName f),
                          JString (coerceLoop (length (B (getField f c))) (B (getField f c))))]).
Proof. unfold memberOf. destruct (omitEmpty f && _); [by left|by right]. Qed.

(** What the struct encoder writes, read back by [parseMembers]. *)
Lemma encodeFields_parse fs : forall next c,
  (membersOf fs c = [] /\ encodeFields next fs c = ([], next))
  \/ (exists body,
        encodeFields next fs c = (next :: "034"%char :: body, ","%char)
        /\ forall fuel d rest, (length fs < fuel)%nat ->
             parseMembers fuel d ("034"%char :: body ++ "}"%char :: rest)
             = Ok (membersOf fs c, rest)).
Proof.
  induction fs as [|f fs IH]; intros next c; [by left|].
  cbn [encodeFields membersOf flat_map].
  destruct (memberOf_cases f c) as [[-> ->]|[-> ->]].
  { cbn [app]. fold (membersOf fs c).
    destruct (IH next c) as [?|(body & Henc & Hparse)]; [by left|right].
    exists body. split; [done|]. intros fuel d rest Hfuel. apply Hparse. simpl in Hfuel. lia. }
  right. destruct (IH ","%char c) as [[Hnil ->]|(body' & -> & Hparse)].
  - eexists. split.
    + unfold appendString at 1. cbn [app]. reflexivity.
    + intros fuel d rest Hfuel. simpl in Hfuel.
      destruct fuel as [|[|fuel]]; [lia..|].
      pose proof (parseMembers_one fuel d f (B (getField f c)) ("}"%char :: rest)) as H1.
      unfold appendString at 1 in H1. cbn [app] in H1. rewrite app_nil_r.
      repeat first [progress rewrite <- app_assoc | progress cbn [app]].
      repeat first [progress rewrite <- app_assoc in H1 | progress cbn [app] in H1].
      rewrite H1. fold (membersOf fs c). by rewrite Hnil.
  - eexists. split.
    + unfold appendString at 1. cbn [app]. reflexivity.
    + intros fuel d rest Hfuel. simpl in Hfuel.
      destruct fuel as [|[|fuel]]; [lia..|].
      pose proof (parseMembers_one fuel d f (B (getField f c))
                    (","%char :: "034"%char :: body' ++ "}"%char :: rest)) as H1.
      unfold appendString at 1 in H1. cbn [app] in H1.
      repeat first [progress rewrite <- app_assoc | progress cbn [app]].
      repeat first [progress rewrite <- app_assoc in H1 | progress cbn [app] in H1].
      rewrite H1. cbv zeta. cbn [skipSpace]. change (isSpace ",") with false.
      cbn [expect]. change (Ascii.eqb "," ",") with true. cbn iota.
      rewrite Hparse by lia. by bind_step.
Qed.

(** The text of [json.Marshal] for a record, read as one value. *)
Lemma readValue_marshalBytes c :
  readValue (marshalBytes c) = Ok (JObject (membersOf structFields c), []).
Proof.
  unfold marshalBytes.
  destruct (encodeFields_parse structFields "{"%char c) as [[Hnil _]|(body & -> & Hparse)].
  { exfalso. unfold membersOf, structFields in Hnil. cbn [flat_map] in Hnil.
    unfold memberOf at 1 in Hnil. cbn [omitEmpty andb] in Hnil. discriminate Hnil. }
  change (Ascii.eqb "," "{") with false. cbn iota.
  unfold readValue. cbn [app length Nat.mul].
  remember (_ + _)%nat as fuel eqn:Hfuel.
  assert (4 < fuel)%nat as H4 by (rewrite Hfuel, !length_app; simpl; lia).
  clear Hfuel. cbn [parseValue skipSpace]. change (isSpace "{") with false. cbn iota.
  change (Ascii.eqb "{" "{") with true. cbn iota.
  change (maxNestingDepth <? 0 + 1) with false. cbn iota.
  cbn [skipSpace]. change (isSpace "034") with false. cbn [expect].
  change (Ascii.eqb "034" "}") with false. cbn iota.
  unfold B. cbn [list_ascii_of_string]. rewrite Hparse by (simpl; lia). by bind_step.
Qed.

Lemma fieldByName_fieldName f : fieldByName (B (fieldName f)) = Some f.
Proof. by destruct f. Qed.

Lemma B_Marshal c : B (Marshal c) = marshalBytes c.
Proof. unfold B, Marshal. apply list_ascii_of_string_of_list_ascii. Qed.

Lemma coerceUTF8_empty s : s = ""%string -> s = coerceUTF8 s.
Proof. by intros ->. Qed.

(** Storing the members of the text into the zero record gives the
    record back, up to [coerceUTF8]. *)
Lemma decodeObject_membersOf c :
  decodeObject (membersOf structFields c) zeroCat = Ok (coerceCat c).
Proof.
  unfold membersOf, structFields, memberOf. cbn [flat_map omitEmpty getField andb app].
  destruct c as [name id birth color]. cbn [Name ID BirthDate Color].
  unfold coerceCat. cbn [Name ID BirthDate Color].
  destruct (bool_decide_reflect (id = ""%string)) as [->|Hid];
  destruct (bool_decide_reflect (birth = ""%string)) as [->|Hbirth];
  destruct (bool_decide_reflect (color = ""%string)) as [->|Hcolor];
    cbn [app decodeObject]; rewrite ?fieldByName_fieldName;
    cbn [storeField setField mbind res_bind decodeObject];
    reflexivity.
Qed.

Lemma keys_membersOf c :
  map (fun kv : bytes * json => string_of_list_ascii kv.1) (membersOf structFields c) = keysOf c.
Proof.
  unfold membersOf, structFields, memberOf, keysOf.
  cbn [flat_map omitEmpty getField andb app].
  destruct (bool_decide (ID c = ""%string)), (bool_decide (BirthDate c = ""%string)),
           (bool_decide (Color c = ""%string)); reflexivity.
Qed.

Lemma Unmarshal_Marshal c : Unmarshal (Marshal c) zeroCat = Ok (coerceCat c).
Proof.
  unfold Unmarshal. rewrite B_Marshal, readValue_marshalBytes. bind_step.
  cbn [skipSpace decodeValue]. apply decodeObject_membersOf.
Qed.

Lemma objectKeys_Marshal c : objectKeys (Marshal c) = Some (keysOf c).
Proof.
  unfold objectKeys. rewrite B_Marshal, readValue_marshalBytes. by rewrite keys_membersOf.
Qed.

Lemma coerceCat_valid c :
  ValidString (Name c) = true -> ValidString (ID c) = true ->
  ValidString (BirthDate c) = true -> ValidString (Color c) = true ->
  coerceCat c = c.
Proof.
  intros H1 H2 H3 H4. unfold coerceCat. rewrite !coerceUTF8_valid by done. by destruct c.
Qed.

Lemma elem_of_keysOf c k :
  k ∈ keysOf c <->
  k = "name"%string
  \/ (k = "id"%string /\ ID c <> ""%string)
  \/ (k = "birthDate"%string /\ BirthDate c <> ""%string)
  \/ (k = "color"%string /\ Color c <> ""%string).
Proof.
  unfold keysOf. rewrite elem_of_cons, !elem_of_app.
  destruct (bool_decide_reflect (ID c = ""%string)) as [E1|E1];
  destruct (bool_decide_reflect (BirthDate c = ""%string)) as [E2|E2];
  destruct (bool_decide_reflect (Color c = ""%string)) as [E3|E3];
    rewrite ?list_elem_of_singleton, ?elem_of_nil; tauto.
Qed.
End MarshalFacts.

(** ** What the decoder accepts and stores *)
Module Scanned.
Import Utf8 GoJSON GoJSONFacts GoJSONApp Utf8Facts RoundTrip.

(** *** [unquoteBytes] accepts what the scanner accepted *)

(** The scanner has split the input at the closing quote. *)
Lemma scanString_split s : forall st lit r,
  scanString st s = Some (lit, r) -> s = lit ++ "034"%char :: r.
Proof.
  induction s as [|c s IH]; intros st lit r H; simpl in H; [done|].
  destruct st;
    repeat match type of H with
    | (if ?b then _ else _) = _ => destruct b eqn:?
    end;
    try done;
    try (apply consFst_Some in H as (l' & -> & H); apply IH in H; simpl; by f_equal).
  injection H as <- <-. simpl. f_equal.
  match goal with E : Ascii.eqb c _ = true |- _ => by apply Ascii.eqb_eq in E end.
Qed.

Lemma getu4_hex h1 h2 h3 h4 t :
  isHex h1 = true -> isHex h2 = true -> isHex h3 = true -> isHex h4 = true ->
  0 <= getu4 ("\"%char :: "u"%char :: h1 :: h2 :: h3 :: h4 :: t).
Proof.
  unfold isHex, getu4. cbn [Ascii.eqb Bool.eqb andb].
  assert (forall c v, hexVal c = Some v -> 0 <= v < 16) as Hv.
  { intros c v. unfold hexVal. pose proof (code_range c).
    repeat match goal with |- context [if ?b then _ else _] => destruct b eqn:? end;
      intros [= <-]; lia. }
  destruct (hexVal h1) as [v1|] eqn:E1; [|done].
  destruct (hexVal h2) as [v2|] eqn:E2; [|done].
  destruct (hexVal h3) as [v3|] eqn:E3; [|done].
  destruct (hexVal h4) as [v4|] eqn:E4; [|done].
  intros _ _ _ _. apply Hv in E1, E2, E3, E4. lia.
Qed.

Lemma getu4_nonneg s :
  0 <= getu4 s ->
  exists h1 h2 h3 h4 t,
    s = "\"%char :: "u"%char :: h1 :: h2 :: h3 :: h4 :: t
    /\ isHex h1 = true /\ isHex h2 = true /\ isHex h3 = true /\ isHex h4 = true.
Proof.
  destruct s as [|c0 [|c1 [|h1 [|h2 [|h3 [|h4 t]]]]]]; try (cbn; lia).
  unfold getu4, isHex.
  destruct (Ascii.eqb c0 "\") eqn:E0; [|cbn; lia].
  destruct (Ascii.eqb c1 "u") eqn:E1; [|cbn; lia].
  apply Ascii.eqb_eq in E0, E1. subst. cbn [andb].
  destruct (hexVal h1) eqn:?, (hexVal h2) eqn:?, (hexVal h3) eqn:?, (hexVal h4) eqn:?;
    intros H; try lia.
  exists h1, h2, h3, h4, t.
  repeat split; match goal with E : hexVal ?h = Some _ |- context [hexVal ?h] => by rewrite E end.
Qed.

Lemma consFst_cons_inv {A C} (a b : A) (o : option (list A * C)) l c :
  consFst a o = Some (b :: l, c) -> o = Some (l, c).
Proof. destruct o as [[l' c']|]; [|done]. by intros [= _ -> ->]. Qed.

Lemma utf16DecodeRune_low r1 r2 : utf16DecodeRune r1 r2 <> RuneError -> 0 <= r2.
Proof.
  unfold utf16DecodeRune.
  destruct (0xd800 <=? r1); [|done]. destruct (r1 <? 0xdc00); [|done].
  destruct (Z.leb_spec 0xdc00 r2); [lia|done].
Qed.

Section scanned.
Variable r : bytes.

Lemma scanned_of_scan s lit : scanString stateInString s = Some (lit, r) -> scanned r lit.
Proof. intros H. unfold scanned. by rewrite <- (scanString_split _ _ _ _ H). Qed.

Lemma scanned_drop_high n : forall l,
  Forall (fun b => 0x80 <= code b) (take n l) -> scanned r l -> scanned r (drop n l).
Proof.
  induction n as [|n IH]; intros l Hh H; [by rewrite drop_0|].
  destruct l as [|b l]; [done|]. cbn [take drop] in *.
  apply Forall_cons in Hh as [Hb Hh]. apply IH; [done|].
  unfold scanned in *. cbn [app] in H. rewrite scanString_high in H by done.
  by apply consFst_cons_inv in H.
Qed.

Lemma scanned_escape h1 h2 h3 h4 t :
  scanned r ("\"%char :: "u"%char :: h1 :: h2 :: h3 :: h4 :: t) ->
  isHex h1 = true /\ isHex h2 = true /\ isHex h3 = true /\ isHex h4 = true /\ scanned r t.
Proof.
  unfold scanned. cbn [app scanString]. change (Ascii.eqb "\" "034") with false.
  change (Ascii.eqb "\" "\") with true. change (isEscChar "u") with false.
  change (Ascii.eqb "u" "u") with true. cbv iota.
  destruct (isHex h1); [|done]. destruct (isHex h2); [|done].
  destruct (isHex h3); [|done]. destruct (isHex h4); [|done].
  intros H. by do 6 apply consFst_cons_inv in H.
Qed.

Lemma scanned_escape_shape l :
  scanned r ("\"%char :: "u"%char :: l) ->
  exists h1 h2 h3 h4 t, l = h1 :: h2 :: h3 :: h4 :: t.
Proof.
  unfold scanned. cbn [app scanString]. change (Ascii.eqb "\" "034") with false.
  change (Ascii.eqb "\" "\") with true. change (isEscChar "u") with false.
  change (Ascii.eqb "u" "u") with true. cbv iota.
  intros H. do 2 apply consFst_cons_inv in H.
  destruct l as [|h1 l]; [by vm_compute in H|].
  cbn [app scanString] in H. destruct (isHex h1); [|done]. apply consFst_cons_inv in H.
  destruct l as [|h2 l]; [by vm_compute in H|].
  cbn [app scanString] in H. destruct (isHex h2); [|done]. apply consFst_cons_inv in H.
  destruct l as [|h3 l]; [by vm_compute in H|].
  cbn [app scanString] in H. destruct (isHex h3); [|done]. apply consFst_cons_inv in H.
  destruct l as [|h4 l]; [by vm_compute in H|].
  by exists h1, h2, h3, h4, l.
Qed.

(** Every literal the scanner accepts is unquoted: the failure of
    [unquoteBytes] on a scanned literal, which [literalStore] turns into
    a panic, does not occur. *)
Lemma unquoteLoop_scanned f : forall l,
  (length l <= f)%nat -> scanned r l -> exists t, unquoteLoop f l = Ok t.
Proof.
  induction f as [|f IH]; intros l Hlen H.
  { destruct l; [by exists []|simpl in Hlen; lia]. }
  destruct l as [|c l]; [by exists []|]. simpl in Hlen.
  cbn [unquoteLoop].
  pose proof H as H0. unfold scanned in H. cbn [app scanString] in H.
  destruct (Ascii.eqb c "034") eqn:Eq; [done|].
  destruct (Ascii.eqb c "\") eqn:Eb.
  - apply Ascii.eqb_eq in Eb. subst c. apply consFst_cons_inv in H.
    destruct l as [|e l]; [by apply consFst_Some in H as (? & ? & _)|].
    cbn [app scanString] in H. simpl in Hlen.
    destruct (isEscChar e) eqn:Ee.
    + apply consFst_cons_inv in H.
      destruct (IH l ltac:(lia) H) as [t Ht]. rewrite Ht.
      unfold isEscChar in Ee.
      destruct (Ascii.eqb e "034"), (Ascii.eqb e "\"), (Ascii.eqb e "/"),
        (Ascii.eqb e "'"), (Ascii.eqb e "b"), (Ascii.eqb e "f"),
        (Ascii.eqb e "n"), (Ascii.eqb e "r"), (Ascii.eqb e "t");
        cbn in Ee |- *; try discriminate Ee; by eexists.
    + destruct (Ascii.eqb e "u") eqn:Eu; [|done].
      apply Ascii.eqb_eq in Eu. subst e.
      destruct (scanned_escape_shape _ H0) as (h1 & h2 & h3 & h4 & t & ->).
      destruct (scanned_escape _ _ _ _ _ H0) as (Hh1 & Hh2 & Hh3 & Hh4 & Ht).
      pose proof (getu4_hex h1 h2 h3 h4 t Hh1 Hh2 Hh3 Hh4) as Hr.
      change (Ascii.eqb "u" "034" || Ascii.eqb "u" "\" || Ascii.eqb "u" "/"
              || Ascii.eqb "u" "'") with false.
      change (Ascii.eqb "u" "b") with false. change (Ascii.eqb "u" "f") with false.
      change (Ascii.eqb "u" "n") with false. change (Ascii.eqb "u" "r") with false.
      change (Ascii.eqb "u" "t") with false. change (Ascii.eqb "u" "u") with true.
      cbv iota zeta.
      rewrite (proj2 (Z.ltb_ge _ _) Hr).
      change (drop 6 ("\"%char :: "u"%char :: h1 :: h2 :: h3 :: h4 :: t)) with t.
      simpl in Hlen.
      destruct (IH t ltac:(lia) Ht) as [u Hu].
      destruct (IsSurrogate _); [|rewrite Hu; by eexists].
      destruct (Z.eqb_spec (utf16DecodeRune
        (getu4 ("\"%char :: "u"%char :: h1 :: h2 :: h3 :: h4 :: t)) (getu4 t)) RuneError)
        as [E|E]; cbn [negb]; [rewrite Hu; by eexists|].
      apply utf16DecodeRune_low, getu4_nonneg in E
        as (g1 & g2 & g3 & g4 & t' & -> & Hg1 & Hg2 & Hg3 & Hg4).
      apply scanned_escape in Ht as (_ & _ & _ & _ & Ht).
      change (drop 6 ("\"%char :: "u"%char :: g1 :: g2 :: g3 :: g4 :: t')) with t'.
      simpl in Hlen.
      destruct (IH t' ltac:(lia) Ht) as [u' Hu']. rewrite Hu'. by eexists.
  - destruct (code c <? 32) eqn:Ec; [done|]. apply consFst_cons_inv in H.
    cbn [orb].
    destruct (code c <? 128) eqn:Eh.
    + destruct (IH l ltac:(lia) H) as [t Ht]. rewrite Ht. by eexists.
    + destruct (DecodeRune (c :: l)) as [rr size] eqn:ED.
      assert (exists t, unquoteLoop f (drop size (c :: l)) = Ok t) as [t Ht].
      { pose proof (DecodeRune_size (c :: l) ltac:(done)) as Hs. rewrite ED in Hs.
        simpl in Hs.
        destruct (decide (size = 1%nat)) as [->|Hne].
        { apply IH; [simpl; rewrite drop_0; lia|by rewrite skipn_cons, drop_0]. }
        apply IH.
        - rewrite length_drop. simpl. lia.
        - apply scanned_drop_high; [|done].
          apply (runeAt_high _ rr); [|done].
          apply DecodeRune_runeAt; [done|done|]. intros [_ ?]. done. }
      rewrite Ht. by eexists.
Qed.

Lemma unquote_scanned s lit :
  scanString stateInString s = Some (lit, r) -> exists t, unquote lit = Ok t.
Proof. intros H. apply unquoteLoop_scanned; [done|by apply (scanned_of_scan s)]. Qed.

End scanned.

(** [parseString] fails exactly when the scanner rejects the literal. *)
Lemma parseString_Err s e :
  parseString s = Err e <-> scanString stateInString s = None /\ e = ESyntax.
Proof.
  unfold parseString. destruct (scanString stateInString s) as [[lit rest]|] eqn:E.
  - destruct (unquote_scanned _ _ _ E) as [t ->]. cbn. split; [done|by intros [? _]].
  - split; [by intros [= <-]|by intros [_ ->]].
Qed.
End Scanned.

Module Decoded.
Import Utf8 GoJSON GoJSONFacts GoJSONApp Utf8Facts RoundTrip.

Lemma validLoop_WellFormed f : forall s,
  (length s <= f)%nat -> WellFormed s -> validLoop f s = true.
Proof.
  induction f as [|f IH]; intros s Hlen H.
  { destruct s; [done|simpl in Hlen; lia]. }
  destruct H as [|s c n Hr Hw]; [done|].
  pose proof (runeAt_length _ _ _ Hr) as Hn.
  destruct s as [|a s]; [simpl in Hn; lia|].
  cbn [validLoop]. rewrite (runeAt_DecodeRune _ _ _ Hr).
  assert ((c =? RuneError) && (n =? 1)%nat = false) as ->.
  { destruct (Nat.eqb_spec n 1) as [->|]; [|by rewrite andb_false_r].
    inversion Hr; subst. rewrite andb_true_r. apply Z.eqb_neq.
    unfold RuneError. lia. }
  apply IH; [|done]. rewrite length_drop. simpl in *. lia.
Qed.

Lemma Valid_WellFormed s : WellFormed s -> Valid s = true.
Proof. intros H. by apply validLoop_WellFormed. Qed.

Lemma WellFormed_cons a t : code a < 0x80 -> WellFormed t -> WellFormed (a :: t).
Proof. intros Ha Ht. apply (wf_rune _ (code a) 1); [by constructor|done]. Qed.

Lemma WellFormed_ascii l : Forall (fun a => code a < 0x80) l -> WellFormed l.
Proof. induction 1; [constructor|by apply WellFormed_cons]. Qed.

Lemma encode3_runeAt r t :
  0x800 <= r <= 0xFFFF -> ~ (surrogateMin <= r <= surrogateMax) ->
  exists c,
    runeAt ([chr (Z.lor 0xE0 (Z.shiftr r 12));
             chr (Z.lor 0x80 (Z.land (Z.shiftr r 6) 0x3F));
             chr (Z.lor 0x80 (Z.land r 0x3F))] ++ t) c 3.
Proof.
  unfold surrogateMin, surrogateMax. intros Hr Hs.
  rewrite !cont_byte, (shiftr_div 12 4096), (shiftr_div 6 64), lead3_byte by zlia.
  eexists. cbn [app]. apply rune3; rewrite ?code_chr; zlia.
Qed.

Lemma encode4_runeAt r t :
  0x10000 <= r <= MaxRune ->
  exists c,
    runeAt ([chr (Z.lor 0xF0 (Z.shiftr r 18));
             chr (Z.lor 0x80 (Z.land (Z.shiftr r 12) 0x3F));
             chr (Z.lor 0x80 (Z.land (Z.shiftr r 6) 0x3F));
             chr (Z.lor 0x80 (Z.land r 0x3F))] ++ t) c 4.
Proof.
  unfold MaxRune. intros Hr.
  rewrite !cont_byte, (shiftr_div 18 262144), (shiftr_div 12 4096), (shiftr_div 6 64),
    lead4_byte by zlia.
  eexists. cbn [app]. apply rune4; rewrite ?code_chr; zlia.
Qed.

(** The bytes [EncodeRune] writes are one encoded rune. *)
Lemma EncodeRune_runeAt r t :
  exists c, runeAt (EncodeRune r ++ t) c (length (EncodeRune r)).
Proof.
  unfold EncodeRune.
  destruct (Z.leb_spec 0 r) as [H0|H0]; cbn [andb orb].
  - destruct (Z.leb_spec r 0x7F) as [H1|H1].
    { eexists. cbn [app length]. apply rune1. rewrite code_chr; lia. }
    destruct (Z.leb_spec r 0x7FF) as [H2|H2].
    { eexists. cbn [app length]. apply rune2.
      - rewrite (shiftr_div 6 64), lead2_byte by zlia. rewrite code_chr; zlia.
      - rewrite cont_byte. rewrite code_chr; zlia. }
    rewrite (proj2 (Z.ltb_ge r 0)) by lia. cbn [orb]. cbv zeta.
    destruct (Z.ltb_spec MaxRune r) as [H3|H3]; cbn [orb].
    { apply (encode3_runeAt RuneError); unfold RuneError, surrogateMin, surrogateMax; lia. }
    destruct (Z.leb_spec surrogateMin r) as [H4|H4]; cbn [andb];
      [destruct (Z.leb_spec r surrogateMax) as [H5|H5]|].
    + apply (encode3_runeAt RuneError); unfold RuneError, surrogateMin, surrogateMax; lia.
    + destruct (Z.leb_spec r 0xFFFF).
      * apply encode3_runeAt; lia.
      * apply encode4_runeAt; lia.
    + destruct (Z.leb_spec r 0xFFFF).
      * apply encode3_runeAt; lia.
      * unfold surrogateMin in H4. lia.
  - rewrite (proj2 (Z.ltb_lt r 0)) by lia. cbn [orb]. cbv zeta.
    apply (encode3_runeAt RuneError); unfold RuneError, surrogateMin, surrogateMax; lia.
Qed.

Lemma WellFormed_EncodeRune r t : WellFormed t -> WellFormed (EncodeRune r ++ t).
Proof.
  intros Ht. destruct (EncodeRune_runeAt r t) as [c Hc].
  apply (wf_rune _ _ _ Hc). by rewrite drop_app_length.
Qed.

(** What [unquoteBytes] returns is well-formed UTF-8. *)
Lemma unquoteLoop_WellFormed f : forall s t, unquoteLoop f s = Ok t -> WellFormed t.
Proof.
  induction f as [|f IH]; intros s t H.
  { destruct s; [|done]. injection H as <-. constructor. }
  destruct s as [|c s]; [injection H as <-; constructor|].
  cbn [unquoteLoop] in H.
  repeat match type of H with
  | (if ?b then _ else _) = _ => destruct b eqn:?
  | match ?l with [] => _ | _ :: _ => _ end = _ => destruct l
  | (let '(_, _) := ?p in _) = _ => destruct p
  | context [let _ := _ in _] => cbv zeta in H
  end; try done.
  all: try (apply bind_Ok in H as (t' & H & [= <-]); apply IH in H).
  all: try (by apply WellFormed_EncodeRune).
  all: try (by apply (WellFormed_EncodeRune RuneError)).
  all: apply WellFormed_cons; [|done].
  all: try (vm_compute; reflexivity).
  all: try (by apply Z.ltb_lt).
  all: match goal with
       | E : _ || _ = true |- _ =>
         rewrite !orb_true_iff, !Ascii.eqb_eq in E;
         destruct E as [[[->| ->]| ->]| ->]; vm_compute; reflexivity
       end.
Qed.

Lemma unquote_WellFormed s t : unquote s = Ok t -> WellFormed t.
Proof. apply unquoteLoop_WellFormed. Qed.

Lemma parseString_Valid s t r : parseString s = Ok (t, r) -> Valid t = true.
Proof.
  unfold parseString. destruct (scanString stateInString s) as [[lit rest]|]; [|done].
  intros (t' & H & [= <- _])%bind_Ok. by apply Valid_WellFormed, (unquote_WellFormed lit).
Qed.

End Decoded.

Module DecodedRecords.
Import Utf8 GoJSON GoJSONFacts GoJSONApp Utf8Facts RoundTrip Decoded.

Lemma parseLiteral_value w v0 s v r : parseLiteral w v0 s = Ok (v, r) -> v = v0.
Proof. unfold parseLiteral. destruct (expectAll (B w) s); [|done]. by intros [= <- _]. Qed.

Lemma parseNumber_value st c s v r : parseNumber st c s = Ok (v, r) -> validValue v.
Proof. unfold parseNumber. destruct (scanNumber st s) as [[lit rest]|]; [|done]. by intros [= <- _]. Qed.

Lemma parseValue_valid f d s v r : parseValue f d s = Ok (v, r) -> validValue v.
Proof.
  destruct f as [|f]; [done|]. cbn [parseValue].
  destruct (skipSpace s) as [|c r0]; [done|].
  repeat match goal with
  | |- (if ?b then _ else _) = _ -> _ => destruct b
  end; try done.
  - destruct (expect "}" (skipSpace r0)); [by intros [= <- _]|].
    intros H. inv_bind H. by injection H as <- _.
  - destruct (expect "]" (skipSpace r0)); [by intros [= <- _]|].
    intros H. inv_bind H. by injection H as <- _.
  - intros H. inv_bind H. injection H as <- _. by apply parseString_Valid in Hx.
  - apply parseNumber_value.
  - apply parseNumber_value.
  - apply parseNumber_value.
  - by intros ->%parseLiteral_value.
  - by intros ->%parseLiteral_value.
  - by intros ->%parseLiteral_value.
Qed.

Lemma parseMembers_valid f : forall d s ms r,
  parseMembers f d s = Ok (ms, r) -> Forall (fun kv => validValue kv.2) ms.
Proof.
  induction f as [|f IH]; [done|]. intros d s ms r H. cbn [parseMembers] in H.
  destruct (expect "034" (skipSpace s)) as [r0|]; [|done].
  inv_bind H.
  destruct (expect ":" (skipSpace _)) as [r2|]; [|done].
  inv_bind H. apply parseValue_valid in Hx0.
  destruct (expect "," (skipSpace _)) as [r4|].
  - inv_bind H. injection H as <- _. constructor; [done|by apply IH in Hx1].
  - destruct (expect "}" (skipSpace _)) as [r4|]; [|done].
    injection H as <- _. by repeat constructor.
Qed.

Lemma ValidString_of_list s : ValidString (string_of_list_ascii s) = Valid s.
Proof. unfold ValidString. by rewrite list_ascii_of_string_of_list_ascii. Qed.

Lemma validCat_setField f s c :
  ValidString s = true -> validCat c -> validCat (setField f s c).
Proof. intros Hs (H1 & H2 & H3 & H4). by destruct f; repeat split. Qed.

Lemma decodeObject_valid ms : forall c c',
  Forall (fun kv => validValue kv.2) ms -> validCat c ->
  decodeObject ms c = Ok c' -> validCat c'.
Proof.
  induction ms as [|[key v] ms IH]; intros c c' Hms Hc H; simpl in H.
  { by injection H as <-. }
  apply Forall_cons in Hms as [Hv Hms]. simpl in Hv.
  destruct (fieldByName key) as [f|]; [|by apply (IH c)].
  apply bind_Ok in H as (c1 & H1 & H). apply (IH c1); [done| |done].
  destruct v; simpl in H1; try done.
  - by injection H1 as <-.
  - injection H1 as <-. apply validCat_setField; [|done]. by rewrite ValidString_of_list.
Qed.

(** Every string [Decode] stores into a record is well-formed UTF-8. *)
Lemma Decode_valid body v c : validCat v -> Decode body v = Ok c -> validCat c.
Proof.
  intros Hv H. unfold Decode in H. inv_bind H.
  destruct j; simpl in H; try done; [by injection H as <-|].
  apply (decodeObject_valid m v); [|done|done].
  unfold readValue in Hx. cbn [parseValue] in Hx.
  destruct (skipSpace (B body)) as [|c0 r0]; [done|].
  repeat match type of Hx with
  | (if ?b then _ else _) = _ => destruct b
  end; try done.
  - destruct (expect "}" (skipSpace r0)); [simplify_eq; constructor|].
    inv_bind Hx. simplify_eq. by apply parseMembers_valid in Hx0.
  - destruct (expect "]" (skipSpace r0)); [by simplify_eq|].
    inv_bind Hx. by simplify_eq.
  - inv_bind Hx. by simplify_eq.
  - unfold parseNumber in Hx. destruct (scanNumber _ _) as [[? ?]|]; by simplify_eq.
  - unfold parseNumber in Hx. destruct (scanNumber _ _) as [[? ?]|]; by simplify_eq.
  - unfold parseNumber in Hx. destruct (scanNumber _ _) as [[? ?]|]; by simplify_eq.
  - by apply parseLiteral_value in Hx.
  - by apply parseLiteral_value in Hx.
  - by apply parseLiteral_value in Hx.
Qed.

Lemma hexByte_ascii n : code (UUID.hexByte n) < 0x80.
Proof.
  unfold UUID.hexByte.
  destruct (nth_in_or_default (Z.to_nat n) (list_ascii_of_string UUID.hextable) "0"%char)
    as [H| ->]; [|by vm_compute].
  revert H. generalize (nth (Z.to_nat n) (list_ascii_of_string UUID.hextable) "0"%char).
  intros a H. cbn in H. repeat (destruct H as [<-|H]; [by vm_compute|]). done.
Qed.

(** The text of a UUID is ASCII. *)
Lemma ValidString_UUID_String u : ValidString (UUID.UUID_String u) = true.
Proof.
  unfold UUID.UUID_String. rewrite ValidString_of_list.
  apply Valid_WellFormed, WellFormed_ascii. cbn [UUID.hexEncode flat_map app].
  repeat (constructor; [first [apply hexByte_ascii|by vm_compute]|]). constructor.
Qed.

Lemma validCat_zeroCat : validCat zeroCat.
Proof. by repeat split. Qed.

Lemma validCat_exec c (db : gmap string Cat) :
  map_Forall (fun _ => validCat) db -> map_Forall (fun _ => validCat) (exec c db).2.
Proof.
  intros Hdb.
  destruct (exec_cases c db) as [[-> _]|[(req & rnd & P & -> & HP & HE)|(req & x & -> & Hx & HE)]];
    [done| |]; rewrite HE; cbn [snd].
  - apply map_Forall_insert_2; [|done].
    apply (Decode_valid _ _ _ validCat_zeroCat) in HP as (H1 & _ & H3 & H4).
    repeat split; try done. apply ValidString_UUID_String.
  - by apply map_Forall_delete.
Qed.

(** In every store reached from a store of well-formed records, every
    record is well-formed. *)
Lemma validCat_run cs : forall (db : gmap string Cat),
  map_Forall (fun _ => validCat) db -> map_Forall (fun _ => validCat) (run cs db).2.
Proof.
  induction cs as [|c cs IH]; intros db Hdb; [done|].
  rewrite run_cons. cbn [snd]. by apply IH, validCat_exec.
Qed.

Lemma validCat_catsDatabase : map_Forall (fun _ => validCat) catsDatabase.
Proof. apply map_Forall_singleton. by vm_compute. Qed.

End DecodedRecords.

(** * The claims *)
Local Open Scope string_scope.

(** ** The inputs, evaluated *)
Lemma Decode_bodyToto :
  GoJSON.Decode (Body (bodyRequest bodyToto)) zeroCat = Ok (mkCat "Toto" "" "" "Grey").
Proof. vm_compute. reflexivity. Qed.

Lemma Decode_bodyWithID :
  GoJSON.Decode (Body (bodyRequest bodyWithID)) zeroCat = Ok (mkCat "Tom" "client-id" "" "").
Proof. vm_compute. reflexivity. Qed.

Lemma Decode_bodyInvalid :
  GoJSON.Decode (Body (bodyRequest bodyInvalid)) zeroCat = Err ESyntax.
Proof. vm_compute. reflexivity. Qed.

Lemma Decode_empty : GoJSON.Decode "" zeroCat = Err ESyntax.
Proof. vm_compute. reflexivity. Qed.

Lemma Unmarshal_bodyToto :
  GoJSON.Unmarshal bodyToto zeroCat = Ok (mkCat "Toto" "" "" "Grey").
Proof. vm_compute. reflexivity. Qed.

Lemma UUID_rnd0 : UUID.UUID_String (UUID.New rnd0) = uuid0.
Proof. vm_compute. reflexivity. Qed.

Lemma UUID_rnd1 : UUID.UUID_String (UUID.New rnd1) = uuid1.
Proof. vm_compute. reflexivity. Qed.

Lemma dbAfterToto_eq :
  dbAfterToto = <[uuid0 := mkCat "Toto" uuid0 "" "Grey"]> catsDatabase.
Proof.
  unfold dbAfterToto. rewrite run_cons. cbn [run exec fst snd].
  rewrite (createCat_Ok _ _ _ _ Decode_bodyToto). cbn [snd Name BirthDate Color].
  by rewrite UUID_rnd0.
Qed.

Lemma run_twoCreates :
  (run twoCreates catsDatabase).1
  = [(StatusCreated, AString uuid0); (StatusCreated, AString uuid1)].
Proof.
  unfold twoCreates. rewrite !run_cons. cbn [run exec fst snd].
  rewrite (createCat_Ok _ _ _ _ Decode_bodyToto). cbn [fst snd].
  rewrite (createCat_Ok _ _ _ _ Decode_bodyWithID). cbn [fst snd].
  by rewrite UUID_rnd0, UUID_rnd1.
Qed.

Lemma run_sameBytesTwice :
  run sameBytesTwice catsDatabase
  = ([(StatusCreated, AString uuid0); (StatusCreated, AString uuid0)],
     <[uuid0 := mkCat "Tom" uuid0 "" ""]> dbAfterToto).
Proof.
  rewrite dbAfterToto_eq. unfold sameBytesTwice. rewrite !run_cons. cbn [run exec fst snd].
  rewrite (createCat_Ok _ _ _ _ Decode_bodyToto). cbn [fst snd].
  rewrite (createCat_Ok _ _ _ _ Decode_bodyWithID). cbn [fst snd Name BirthDate Color].
  by rewrite UUID_rnd0.
Qed.

Lemma freshRun_createThenDelete : freshRun createThenDelete catsDatabase.
Proof. unfold createThenDelete. cbn [freshRun]. split_and!; done. Qed.

(** ** C1 *)

(** C1, as amended: for every body that decodes into a record P,
    [createCat] returns 201 with the identifier drawn from [uuid.New],
    and [getCat] with that identifier then returns 200 with a record
    that has the name, the birth date and the colour of P and the
    identifier as its id.  The handler does not look the identifier up:
    when the store does not hold it yet, it was no key before, the store
    grows by one record and every earlier record is kept. *)
Theorem createCat_then_getCat (req : Request) (rnd : nat -> ascii)
    (db : gmap string Cat) (P : Cat) :
  GoJSON.Decode (Body req) zeroCat = Ok P ->
  let newCatID := UUID.UUID_String (UUID.New rnd) in
  let '(resp, db') := createCat req rnd db in
  resp = (StatusCreated, AString newCatID)
  /\ getCat (idRequest newCatID) db'
     = ((StatusOK, ACat (mkCat (Name P) newCatID (BirthDate P) (Color P))), db')
  /\ (db !! newCatID = None ->
      (newCatID ∉ dom db)
      /\ size db' = S (size db)
      /\ forall k c, db !! k = Some c -> db' !! k = Some c).
Proof.
  intros HP newCatID. rewrite (createCat_Ok _ _ _ _ HP). fold newCatID.
  split_and!; [done| |].
  - unfold getCat. by rewrite PathValue_idRequest, lookup_insert_eq.
  - intros Hnew. split_and!.
    + by apply not_elem_of_dom.
    + by apply map_size_insert_None.
    + intros k c Hk. rewrite lookup_insert_ne; [done|]. congruence.
Qed.

Lemma createCat_then_getCat_witness :
  GoJSON.Decode (Body (bodyRequest bodyToto)) zeroCat = Ok (mkCat "Toto" "" "" "Grey")
  /\ (createCat (bodyRequest bodyToto) rnd0 catsDatabase).1 = (StatusCreated, AString uuid0).
Proof.
  split; [exact Decode_bodyToto|].
  pose proof (createCat_then_getCat (bodyRequest bodyToto) rnd0 catsDatabase _
                Decode_bodyToto) as H.
  cbv zeta in H. destruct (createCat _ _ _) as [resp db']. destruct H as [-> _].
  simpl. by rewrite UUID_rnd0.
Defined.

(** C1 fails as stated: in the store reached by one [createCat], a
    second [createCat] whose [uuid.New] draws the same bytes returns an
    identifier that is a key of the store already, and replaces the
    record under it. *)
Lemma createCat_returns_present_key :
  GoJSON.Decode (Body (bodyRequest bodyWithID)) zeroCat = Ok (mkCat "Tom" "client-id" "" "")
  /\ dbAfterToto !! uuid0 = Some (mkCat "Toto" uuid0 "" "Grey")
  /\ createCat (bodyRequest bodyWithID) rnd0 dbAfterToto
     = ((StatusCreated, AString uuid0), <[uuid0 := mkCat "Tom" uuid0 "" ""]> dbAfterToto).
Proof.
  split_and!.
  - exact Decode_bodyWithID.
  - rewrite dbAfterToto_eq. apply lookup_insert_eq.
  - rewrite (createCat_Ok _ _ _ _ Decode_bodyWithID). cbn [Name BirthDate Color].
    by rewrite UUID_rnd0.
Qed.

(** ** C2 *)

(** C2: for every request whose body fails to decode as a record,
    whatever the error, [createCat] returns 400 with the body
    "Invalid JSON input" and the store it was given. *)
Theorem createCat_invalid_body (req : Request) (rnd : nat -> ascii)
    (db : gmap string Cat) (e : error) :
  GoJSON.Decode (Body req) zeroCat = Err e ->
  createCat req rnd db = ((StatusBadRequest, AString "Invalid JSON input"), db).
Proof. apply createCat_Err. Qed.

Lemma createCat_invalid_body_witness :
  GoJSON.Decode (Body (bodyRequest bodyInvalid)) zeroCat = Err ESyntax
  /\ createCat (bodyRequest bodyInvalid) rnd0 catsDatabase
     = ((StatusBadRequest, AString "Invalid JSON input"), catsDatabase).
Proof.
  split; [exact Decode_bodyInvalid|].
  apply (createCat_invalid_body (bodyRequest bodyInvalid) rnd0 catsDatabase ESyntax).
  exact Decode_bodyInvalid.
Defined.

(** ** C3 *)

(** C3: when the identifier of the path is a key of the store,
    [deleteCat] returns 204 with a nil body and the store without that
    key, and a second call returns 404 "Cat not found"; when it is no
    key, [deleteCat] returns 404 "Cat not found" and the store as it
    was, and so does a second call. *)
Theorem deleteCat_found_or_not (req : Request) (db : gmap string Cat) :
  let catID := PathValue req "catId" in
  match db !! catID with
  | Some _ =>
    deleteCat req db = ((StatusNoContent, Nil), delete catID db)
    /\ delete catID db !! catID = None
    /\ deleteCat req (delete catID db)
       = ((StatusNotFound, AString "Cat not found"), delete catID db)
  | None =>
    deleteCat req db = ((StatusNotFound, AString "Cat not found"), db)
    /\ deleteCat req (deleteCat req db).2 = ((StatusNotFound, AString "Cat not found"), db)
  end.
Proof.
  intros catID. destruct (db !! catID) as [x|] eqn:Hx.
  - split; [|split].
    + unfold deleteCat. fold catID. by rewrite Hx.
    + apply lookup_delete_eq.
    + unfold deleteCat. fold catID. by rewrite lookup_delete_eq.
  - assert (deleteCat req db = (StatusNotFound, AString "Cat not found", db)) as H.
    { unfold deleteCat. fold catID. by rewrite Hx. }
    split; [done|]. by rewrite H.
Qed.

(** ** C4 *)

(** C4: for every body that decodes into a record P, whatever id P
    carries, [createCat] stores under the new identifier the record
    with the name, birth date and colour of P and the new identifier as
    its id, and returns 201 with that identifier, a string, as the
    body; two payloads that differ in the id only are stored as the
    same record. *)
Theorem createCat_overwrites_id (req : Request) (rnd : nat -> ascii)
    (db : gmap string Cat) (P : Cat) :
  GoJSON.Decode (Body req) zeroCat = Ok P ->
  let newCatID := UUID.UUID_String (UUID.New rnd) in
  let '(resp, db') := createCat req rnd db in
  resp = (StatusCreated, AString newCatID)
  /\ db' = <[newCatID := mkCat (Name P) newCatID (BirthDate P) (Color P)]> db
  /\ (exists c, db' !! newCatID = Some c /\ ID c = newCatID)
  /\ (forall P', Name P' = Name P -> BirthDate P' = BirthDate P -> Color P' = Color P ->
        setID newCatID P' = setID newCatID P).
Proof.
  intros HP newCatID. rewrite (createCat_Ok _ _ _ _ HP). fold newCatID.
  split_and!; [done|done| |].
  - eexists. split; [apply lookup_insert_eq|done].
  - intros P' H1 H2 H3. unfold setID. by rewrite H1, H2, H3.
Qed.

Lemma createCat_overwrites_id_witness :
  GoJSON.Decode (Body (bodyRequest bodyWithID)) zeroCat = Ok (mkCat "Tom" "client-id" "" "")
  /\ createCat (bodyRequest bodyWithID) rnd0 catsDatabase
     = ((StatusCreated, AString uuid0), <[uuid0 := mkCat "Tom" uuid0 "" ""]> catsDatabase).
Proof.
  split; [exact Decode_bodyWithID|].
  pose proof (createCat_overwrites_id (bodyRequest bodyWithID) rnd0 catsDatabase _
                Decode_bodyWithID) as H.
  cbv zeta in H. destruct (createCat _ _ _) as [resp db']. destruct H as (-> & -> & _).
  cbn [Name BirthDate Color]. by rewrite UUID_rnd0.
Defined.

(** ** C5 *)

(** C5, as amended: [createCat] stores the record under the identifier
    [uuid.New] draws and does not look it up in the store.  From the
    start of the process, when the identifiers returned by the creating
    calls are pairwise distinct, every one of them stores its record
    under a key the store does not hold at that moment; and in every
    store the process reaches no two keys hold records with the same
    id. *)
Theorem create_under_new_key (cs : list call) :
  NoDup (createdIDs (run cs catsDatabase).1) ->
  freshRun cs catsDatabase
  /\ (forall k1 k2 c1 c2,
        (run cs catsDatabase).2 !! k1 = Some c1 ->
        (run cs catsDatabase).2 !! k2 = Some c2 ->
        ID c1 = ID c2 -> k1 = k2).
Proof.
  intros Hnd. split.
  - apply (NoDup_freshRun cs catsDatabase []); [|done].
    intros k [c Hk]. left. unfold catsDatabase in Hk.
    by apply lookup_singleton_Some in Hk as [<- _].
  - intros k1 k2 c1 c2. apply keyedByID_unique, keyedByID_run, keyedByID_catsDatabase.
Qed.

Lemma create_under_new_key_witness :
  NoDup (createdIDs (run twoCreates catsDatabase).1) /\ freshRun twoCreates catsDatabase.
Proof.
  assert (NoDup (createdIDs (run twoCreates catsDatabase).1)) as Hnd.
  { rewrite run_twoCreates. apply (bool_decide_unpack _). vm_compute. exact I. }
  split; [exact Hnd|]. exact (proj1 (create_under_new_key twoCreates Hnd)).
Defined.

(** C5 fails as stated: two creating calls whose [uuid.New] draws the
    same bytes return the same identifier, and the second stores its
    record under a key the store holds, in place of the first record. *)
Lemma create_overwrites_on_equal_bytes :
  createdIDs (run sameBytesTwice catsDatabase).1 = [uuid0; uuid0]
  /\ ~ freshRun sameBytesTwice catsDatabase
  /\ (run sameBytesTwice catsDatabase).2 !! uuid0 = Some (mkCat "Tom" uuid0 "" "").
Proof.
  split_and!.
  - by rewrite run_sameBytesTwice.
  - unfold sameBytesTwice. cbn [freshRun exec]. intros (_ & H & _).
    specialize (H _ Decode_bodyWithID).
    rewrite (createCat_Ok _ _ _ _ Decode_bodyToto) in H. cbn [snd] in H.
    rewrite lookup_insert_eq in H. discriminate H.
  - rewrite run_sameBytesTwice. apply lookup_insert_eq.
Qed.

(** ** C6 *)

(** C6, as amended: from the start of the process, after a sequence of
    calls in which every record was stored under a new key, with N
    responses 201 and M responses 204, [listCats] returns 200 with
    1 + N - M identifiers, none twice: the seed id1 is counted until it
    is deleted.  Each identifier listed is id1, with no call deleting
    it, or was returned by a creating call after which no call deleted
    it. *)
Theorem listCats_after_run (cs : list call) (req : Request) :
  freshRun cs catsDatabase ->
  let '(rs, db) := run cs catsDatabase in
  exists l,
    listCats req db = ((StatusOK, AStrings l), db)
    /\ NoDup l
    /\ (length l + countStatus StatusNoContent rs = 1 + countStatus StatusCreated rs)%nat
    /\ forall catID, catID ∈ l ->
         (catID = "id1" /\ Forall (fun c => ~ isDeleteOf catID c) cs)
         \/ (exists pre req' rnd post P,
               cs = (pre ++ CreateCat req' rnd :: post)%list
               /\ GoJSON.Decode (Body req') zeroCat = Ok P
               /\ catID = UUID.UUID_String (UUID.New rnd)
               /\ Forall (fun c => ~ isDeleteOf catID c) post).
Proof.
  intros Hfresh. pose proof (run_size cs catsDatabase Hfresh) as Hsize.
  pose proof (run_lookup_Some cs catsDatabase) as Hkeys.
  destruct (run cs catsDatabase) as [rs db]. cbn [fst snd] in *.
  exists (listMapKeys db). split_and!.
  - done.
  - apply NoDup_listMapKeys.
  - rewrite length_listMapKeys. unfold catsDatabase in Hsize.
    rewrite map_size_singleton in Hsize. lia.
  - intros catID Hin. apply elem_of_listMapKeys in Hin.
    destruct (Hkeys _ Hin) as [[[c Hc] Hnodel]|Hcreated]; [left|right; exact Hcreated].
    unfold catsDatabase in Hc. apply lookup_singleton_Some in Hc as [Hid _].
    split; [by symmetry|exact Hnodel].
Qed.

Lemma listCats_after_run_witness :
  freshRun createThenDelete catsDatabase
  /\ exists l, (listCats (bodyRequest "") (run createThenDelete catsDatabase).2).1
               = (StatusOK, AStrings l).
Proof.
  split; [exact freshRun_createThenDelete|].
  pose proof (listCats_after_run createThenDelete (bodyRequest "")
                freshRun_createThenDelete) as H.
  destruct (run createThenDelete catsDatabase) as [rs db].
  destruct H as (l & Hl & _). exists l. cbn [snd]. by rewrite Hl.
Defined.

(** C6 fails as stated: at the start of the process, with no creating
    and no deleting call (N = M = 0), [listCats] returns one identifier,
    id1, which no creating call returned. *)
Lemma listCats_counts_the_seed :
  run [] catsDatabase = ([], catsDatabase)
  /\ countStatus StatusCreated [] = 0%nat
  /\ countStatus StatusNoContent [] = 0%nat
  /\ listCats (bodyRequest "") catsDatabase = ((StatusOK, AStrings ["id1"]), catsDatabase)
  /\ length ["id1"] <> (0 - 0)%nat
  /\ "id1" ∉ createdIDs [].
Proof.
  split; [reflexivity|]. split; [reflexivity|]. split; [reflexivity|].
  split; [unfold listCats; by rewrite listMapKeys_catsDatabase|].
  split; [discriminate|]. apply not_elem_of_nil.
Qed.

(** ** C7 *)

(** C7, as amended: from the start of the process, for every identifier
    other than id1 that no creating call returned, [getCat] and
    [deleteCat] both return 404 with the body "Cat not found", and the
    store as it was. *)
Theorem not_created_not_found (cs : list call) (req : Request) :
  PathValue req "catId" <> "id1" ->
  PathValue req "catId" ∉ createdIDs (run cs catsDatabase).1 ->
  let db := (run cs catsDatabase).2 in
  getCat req db = ((StatusNotFound, AString "Cat not found"), db)
  /\ deleteCat req db = ((StatusNotFound, AString "Cat not found"), db).
Proof.
  intros Hne Hnot db.
  assert (db !! PathValue req "catId" = None) as Hnone.
  { apply run_lookup_None; [|done]. unfold catsDatabase. by apply lookup_singleton_ne. }
  unfold getCat, deleteCat. by rewrite Hnone.
Qed.

Lemma not_created_not_found_witness :
  PathValue (idRequest "nope") "catId" <> "id1"
  /\ (PathValue (idRequest "nope") "catId" ∉ createdIDs (run twoCreates catsDatabase).1)
  /\ (getCat (idRequest "nope") (run twoCreates catsDatabase).2).1
     = (StatusNotFound, AString "Cat not found").
Proof.
  assert (PathValue (idRequest "nope") "catId" <> "id1") as H1.
  { rewrite PathValue_idRequest. discriminate. }
  assert (PathValue (idRequest "nope") "catId" ∉ createdIDs (run twoCreates catsDatabase).1) as H2.
  { rewrite PathValue_idRequest, run_twoCreates. apply (bool_decide_unpack _).
    vm_compute. exact I. }
  split_and!; [exact H1|exact H2|].
  destruct (not_created_not_found twoCreates (idRequest "nope") H1 H2) as [-> _]. done.
Defined.

(** C7 fails as stated: at the start of the process no creating call has
    returned id1, and [getCat] with id1 returns 200 with the seed
    record, [deleteCat] with id1 returns 204. *)
Lemma seed_found_though_never_created :
  ("id1" ∉ createdIDs (run [] catsDatabase).1)
  /\ getCat (idRequest "id1") (run [] catsDatabase).2
     = ((StatusOK, ACat (mkCat "Toto" "" "2023-04-16" "Grey")), catsDatabase)
  /\ deleteCat (idRequest "id1") (run [] catsDatabase).2
     = ((StatusNoContent, Nil), delete "id1" catsDatabase).
Proof.
  cbn [run fst snd]. split_and!.
  - apply not_elem_of_nil.
  - unfold getCat, catsDatabase. by rewrite PathValue_idRequest, lookup_singleton_eq.
  - unfold deleteCat, catsDatabase. by rewrite PathValue_idRequest, lookup_singleton_eq.
Qed.

(** ** C8 *)

(** C8, as amended: for every record whose four fields are well-formed
    UTF-8, [json.Unmarshal] of [json.Marshal] of the record, into a zero
    record, gives the record back, field for field, and so does
    [Decode]; and for every record the text of [json.Marshal] is an
    object in which the key name is present, and each of the keys id,
    birthDate and color is present exactly when the field is not the
    empty string. *)
Theorem Marshal_Unmarshal_round_trip (c : Cat) :
  (Utf8.ValidString (Name c) = true -> Utf8.ValidString (ID c) = true ->
   Utf8.ValidString (BirthDate c) = true -> Utf8.ValidString (Color c) = true ->
   GoJSON.Unmarshal (GoJSON.Marshal c) zeroCat = Ok c
   /\ GoJSON.Decode (GoJSON.Marshal c) zeroCat = Ok c)
  /\ exists keys,
       GoJSON.objectKeys (GoJSON.Marshal c) = Some keys
       /\ "name" ∈ keys
       /\ ("id" ∈ keys <-> ID c <> "")
       /\ ("birthDate" ∈ keys <-> BirthDate c <> "")
       /\ ("color" ∈ keys <-> Color c <> "").
Proof.
  split.
  - intros H1 H2 H3 H4.
    assert (GoJSON.Unmarshal (GoJSON.Marshal c) zeroCat = Ok c) as HU.
    { rewrite MarshalFacts.Unmarshal_Marshal. f_equal.
      by apply MarshalFacts.coerceCat_valid. }
    split; [exact HU|]. by apply GoJSONApp.Unmarshal_Decode.
  - exists (keysOf c). split; [apply MarshalFacts.objectKeys_Marshal|].
    rewrite !MarshalFacts.elem_of_keysOf. split_and!.
    + by left.
    + split; [intros [H|[[_ H]|[[H _]|[H _]]]]; done|intros H; right; left; done].
    + split; [intros [H|[[H _]|[[_ H]|[H _]]]]; done|intros H; right; right; left; done].
    + split; [intros [H|[[H _]|[[H _]|[_ H]]]]; done|intros H; right; right; right; done].
Qed.

Lemma Marshal_Unmarshal_round_trip_witness :
  Utf8.ValidString (Name seedCat) = true
  /\ GoJSON.Unmarshal (GoJSON.Marshal seedCat) zeroCat = Ok seedCat.
Proof.
  split; [vm_compute; reflexivity|].
  apply (proj1 (Marshal_Unmarshal_round_trip seedCat)); vm_compute; reflexivity.
Defined.

(** Every record of a store reached from the start of the process has
    well-formed fields (they come from [GoJSON.Decode], from [uuid] or
    from the literal of [catsDatabase]), and is given back by
    [json.Unmarshal] of its [json.Marshal]. *)
Lemma stored_records_round_trip cs catID (c : Cat) :
  (run cs catsDatabase).2 !! catID = Some c ->
  validCat c /\ GoJSON.Unmarshal (GoJSON.Marshal c) zeroCat = Ok c.
Proof.
  intros H.
  assert (validCat c) as Hc.
  { by apply (DecodedRecords.validCat_run cs _ DecodedRecords.validCat_catsDatabase catID). }
  split; [done|]. destruct Hc as (H1 & H2 & H3 & H4).
  rewrite MarshalFacts.Unmarshal_Marshal. f_equal. by apply MarshalFacts.coerceCat_valid.
Qed.

(** C8 fails as stated: a record whose name is the byte 0xFF is written
    with the escape of U+FFFD for the name, and read back with the
    three bytes of U+FFFD as its name. *)
Lemma Marshal_Unmarshal_byte_FF :
  GoJSON.Marshal catFF = "{" +:+ quoted "name" +:+ ":" +:+ quoted "\ufffd" +:+ "}"
  /\ GoJSON.Unmarshal (GoJSON.Marshal catFF) zeroCat = Ok (mkCat nameFFFD "" "" "")
  /\ Name (mkCat nameFFFD "" "" "") <> Name catFF.
Proof.
  split; [vm_compute; reflexivity|]. split; [vm_compute; reflexivity|]. discriminate.
Qed.

(** ** C9 *)

(** C9: the store of the start of the process holds one record, under
    the key id1, with the name Toto, the colour Grey and the birth date
    2023-04-16; [listCats] on it returns 200 with the one identifier
    id1, [getCat] with id1 returns 200 with that record, and no
    [createCat] ever returns id1. *)
Theorem catsDatabase_seed :
  catsDatabase !! "id1" = Some (mkCat "Toto" "" "2023-04-16" "Grey")
  /\ dom catsDatabase = {[ "id1" ]}
  /\ size catsDatabase = 1%nat
  /\ (forall req, listCats req catsDatabase = ((StatusOK, AStrings ["id1"]), catsDatabase))
  /\ getCat (idRequest "id1") catsDatabase
     = ((StatusOK, ACat (mkCat "Toto" "" "2023-04-16" "Grey")), catsDatabase)
  /\ (forall req rnd (db : gmap string Cat),
        (createCat req rnd db).1 <> (StatusCreated, AString "id1")).
Proof.
  split_and!.
  - apply lookup_singleton_eq.
  - apply dom_singleton_L.
  - apply map_size_singleton.
  - intros req. unfold listCats. by rewrite listMapKeys_catsDatabase.
  - unfold getCat, catsDatabase. by rewrite PathValue_idRequest, lookup_singleton_eq.
  - intros req rnd db. unfold createCat.
    destruct (GoJSON.Decode (Body req) zeroCat); simpl; [|discriminate].
    intros H. apply (UUID_String_not_id1 (UUID.New rnd)). congruence.
Qed.

(** ** C10 *)

(** C10: [createCat] reads the first JSON value of the body only.  For
    every text that [json.Unmarshal] reads as a record P, and every
    bytes after it, [createCat] on the text followed by those bytes
    returns 201 and stores P under the new identifier; more generally a
    body [Decode] reads as P is read as P with any bytes after it.
    [createCat] returns 400 "Invalid JSON input", and the store as it
    was, exactly when [Decode] of the body fails, and it does for the
    empty body. *)
Theorem createCat_reads_first_value (rnd : nat -> ascii) (db : gmap string Cat) :
  let newCatID := UUID.UUID_String (UUID.New rnd) in
  (forall data trailing P,
     GoJSON.Unmarshal data zeroCat = Ok P ->
     createCat (bodyRequest (data +:+ trailing)) rnd db
     = ((StatusCreated, AString newCatID),
        <[newCatID := mkCat (Name P) newCatID (BirthDate P) (Color P)]> db))
  /\ (forall body trailing P,
        GoJSON.Decode body zeroCat = Ok P ->
        GoJSON.Decode (body +:+ trailing) zeroCat = Ok P)
  /\ (forall req,
        createCat req rnd db = ((StatusBadRequest, AString "Invalid JSON input"), db)
        <-> exists e, GoJSON.Decode (Body req) zeroCat = Err e)
  /\ createCat (bodyRequest "") rnd db
     = ((StatusBadRequest, AString "Invalid JSON input"), db).
Proof.
  intros newCatID. split_and!.
  - intros data trailing P HU. apply createCat_Ok. cbn [Body bodyRequest].
    by apply GoJSONApp.Decode_app, GoJSONApp.Unmarshal_Decode.
  - intros body trailing P. apply GoJSONApp.Decode_app.
  - intros req. split.
    + intros H. destruct (GoJSON.Decode (Body req) zeroCat) as [P|e] eqn:HD; [|by exists e].
      rewrite (createCat_Ok _ _ _ _ HD) in H. discriminate H.
    + intros [e He]. by apply (createCat_Err _ _ _ e).
  - by apply (createCat_Err _ _ _ ESyntax), Decode_empty.
Qed.

Lemma createCat_reads_first_value_witness :
  GoJSON.Unmarshal bodyToto zeroCat = Ok (mkCat "Toto" "" "" "Grey")
  /\ createCat (bodyRequest (bodyToto +:+ " }{ not json")) rnd0 catsDatabase
     = ((StatusCreated, AString uuid0), <[uuid0 := mkCat "Toto" uuid0 "" "Grey"]> catsDatabase).
Proof.
  split; [exact Unmarshal_bodyToto|].
  destruct (createCat_reads_first_value rnd0 catsDatabase) as [H _].
  rewrite (H bodyToto " }{ not json" _ Unmarshal_bodyToto).
  cbn [Name BirthDate Color]. by rewrite UUID_rnd0.
Defined.
